(** * Reely: the captioning client and the captioning core

    A shallow embedding of the React client of Reely (the video card, the
    shared axios instance, the upload form and the route table) and of the
    job orchestrator of the captioning core it talks to.  The client is
    translated from the TypeScript sources; the orchestrator is not part of
    the client sources and is modelled from the design specification, each
    such definition saying so in its doc comment. *)

From Stdlib Require Import ZArith NArith Lia Bool Ascii String List.
From Stdlib Require Import DecimalString HexadecimalString DecimalPos DecimalZ HexadecimalZ.
From stdpp Require Import base option list gmap strings.

Import ListNotations.
Local Open Scope string_scope.

(** ** JavaScript values shared by the components *)

Module JS.

(** A JavaScript number as the client uses it: an integer, or [NaN] (what
    [parseInt] answers on text with no digits). Integers are exact up to
    2^53, far above any value the form handles. *)
Inductive number :=
| Num (z : Z)
| NaN.

(** Truthiness of an optional string ([string | undefined | null]): the
    value is defined and is not the empty string. *)
Definition truthy (v : option string) : bool :=
  match v with
  | Some s => negb (String.eqb s "")
  | None => false
  end.

(** [v && e] on an optional string [v], where [e] is built from [v]. *)
Definition when_truthy {A : Type} (v : option string) (e : string -> A) : option A :=
  match v with
  | Some s => if truthy (Some s) then Some (e s) else None
  | None => None
  end.

(** [String.prototype.startsWith]. *)
Definition startsWith (s p : string) : bool := String.prefix p s.

(** [String.prototype.slice(0, n)]. *)
Definition slice0 (n : nat) (s : string) : string :=
  String.substring 0 (Nat.min n (String.length s)) s.

(** [Number.prototype.toString] in radix 10. *)
Definition toString (n : number) : string :=
  match n with
  | Num z => DecimalString.NilZero.string_of_int (Z.to_int z)
  | NaN => "NaN"
  end.

(** White space that [parseInt] skips before the number (the ASCII part of
    StrWhiteSpaceChar: tab, line feed, vertical tab, form feed, carriage
    return, space). *)
Definition is_space (c : ascii) : bool :=
  let n := nat_of_ascii c in
  (Nat.eqb n 32 || (Nat.leb 9 n && Nat.leb n 13))%bool.

Fixpoint skip_space (s : string) : string :=
  match s with
  | String c r => if is_space c then skip_space r else s
  | EmptyString => s
  end.

(** The longest prefix of decimal digits, as a decimal numeral. *)
Fixpoint dec_prefix (s : string) : Decimal.uint :=
  match s with
  | String "0" r => Decimal.D0 (dec_prefix r)
  | String "1" r => Decimal.D1 (dec_prefix r)
  | String "2" r => Decimal.D2 (dec_prefix r)
  | String "3" r => Decimal.D3 (dec_prefix r)
  | String "4" r => Decimal.D4 (dec_prefix r)
  | String "5" r => Decimal.D5 (dec_prefix r)
  | String "6" r => Decimal.D6 (dec_prefix r)
  | String "7" r => Decimal.D7 (dec_prefix r)
  | String "8" r => Decimal.D8 (dec_prefix r)
  | String "9" r => Decimal.D9 (dec_prefix r)
  | _ => Decimal.Nil
  end.

(** The longest prefix of hexadecimal digits, in either case. *)
Fixpoint hex_prefix (s : string) : Hexadecimal.uint :=
  match s with
  | String "0" r => Hexadecimal.D0 (hex_prefix r)
  | String "1" r => Hexadecimal.D1 (hex_prefix r)
  | String "2" r => Hexadecimal.D2 (hex_prefix r)
  | String "3" r => Hexadecimal.D3 (hex_prefix r)
  | String "4" r => Hexadecimal.D4 (hex_prefix r)
  | String "5" r => Hexadecimal.D5 (hex_prefix r)
  | String "6" r => Hexadecimal.D6 (hex_prefix r)
  | String "7" r => Hexadecimal.D7 (hex_prefix r)
  | String "8" r => Hexadecimal.D8 (hex_prefix r)
  | String "9" r => Hexadecimal.D9 (hex_prefix r)
  | String "a" r | String "A" r => Hexadecimal.Da (hex_prefix r)
  | String "b" r | String "B" r => Hexadecimal.Db (hex_prefix r)
  | String "c" r | String "C" r => Hexadecimal.Dc (hex_prefix r)
  | String "d" r | String "D" r => Hexadecimal.Dd (hex_prefix r)
  | String "e" r | String "E" r => Hexadecimal.De (hex_prefix r)
  | String "f" r | String "F" r => Hexadecimal.Df (hex_prefix r)
  | _ => Hexadecimal.Nil
  end.

(** The digits of [parseInt], after white space and sign: radix 16 after a
    [0x] or [0X] prefix, radix 10 otherwise; no digit at all is [NaN]. *)
Definition has_hex_prefix (s : string) : bool :=
  match s with
  | String c0 (String c1 _) =>
      (Ascii.eqb c0 "0" && (Ascii.eqb c1 "x" || Ascii.eqb c1 "X"))%bool
  | _ => false
  end.

Definition parse_magnitude (s : string) : option Z :=
  if has_hex_prefix s then
    match hex_prefix (String.substring 2 (String.length s - 2) s) with
    | Hexadecimal.Nil => None
    | h => Some (Z.of_hex_uint h)
    end
  else
    match dec_prefix s with
    | Decimal.Nil => None
    | d => Some (Z.of_uint d)
    end.

(** The sign [parseInt] reads, and the text after it. *)
Definition split_sign (s : string) : Z * string :=
  match s with
  | String c r =>
      if Ascii.eqb c "-" then ((-1)%Z, r)
      else if Ascii.eqb c "+" then (1%Z, r)
      else (1%Z, s)
  | EmptyString => (1%Z, s)
  end.

(** [parseInt(s)] with no radix argument. *)
Definition parseInt (s : string) : number :=
  let '(sign, digits) := split_sign (skip_space s) in
  match parse_magnitude digits with
  | Some m => Num (sign * m)
  | None => NaN
  end.

(** A JSON value, as a response body holds it. A number is given by
    whether it is zero and by the text it converts to. *)
#[warnings="-register-all"]
Inductive json :=
| JNull
| JBool (b : bool)
| JNum (zero : bool) (shown : string)
| JStr (s : string)
| JArr (items : list json)
| JObj (fields : list (string * json)).

(** Truthiness of a JSON value: [null], [false], [0] and the empty string
    are falsy, every array and object is truthy. *)
Definition json_truthy (v : json) : bool :=
  match v with
  | JNull => false
  | JBool b => b
  | JNum zero _ => negb zero
  | JStr s => negb (String.eqb s "")
  | JArr _ | JObj _ => true
  end.

(** The text a JSON value converts to, as [alert] shows it: an array is its
    elements joined by commas, a [null] element giving nothing, and an
    object is [[object Object]]. *)
Fixpoint json_toString (v : json) : string :=
  match v with
  | JNull => "null"
  | JBool true => "true"
  | JBool false => "false"
  | JNum _ shown => shown
  | JStr s => s
  | JArr items =>
      (fix join (l : list json) : string :=
         match l with
         | [] => ""
         | x :: rest =>
             let shown := match x with JNull => "" | _ => json_toString x end in
             match rest with
             | [] => shown
             | _ :: _ => shown ++ "," ++ join rest
             end
         end) items
  | JObj _ => "[object Object]"
  end.

(** The outcome of awaiting a promise. *)
Inductive Promise (A : Type) :=
| Resolved (a : A)
| Rejected (reason : string).
Arguments Resolved {A} a.
Arguments Rejected {A} reason.

End JS.

(** ** src/components/VideoCard.tsx *)

Module VideoCard.

(** The [video] prop. Optional fields ([?:]) are options. *)
Record Video := mkVideo {
  id : string;
  filename : string;
  status : string;
  created_at : string;
  completed_at : option string;
  captioned_video_url : option string;
  error : option string
}.

(** The lucide icons the card uses, each with its [className]. *)
Inductive Icon :=
| CheckCircle (className : string)
| XCircle (className : string)
| Loader (className : string)
| Clock (className : string)
| Download (className : string).

Definition getStatusIcon (status : string) : Icon :=
  if String.eqb status "completed" then CheckCircle "w-5 h-5 text-green-600"
  else if String.eqb status "failed" then XCircle "w-5 h-5 text-red-600"
  else if String.eqb status "processing" then Loader "w-5 h-5 text-blue-600 animate-spin"
  else Clock "w-5 h-5 text-yellow-600".

Definition getStatusText (status : string) : string :=
  if String.eqb status "completed" then "Completed"
  else if String.eqb status "failed" then "Failed"
  else if String.eqb status "processing" then "Processing"
  else "Pending".

Definition getStatusColor (status : string) : string :=
  if String.eqb status "completed" then "bg-green-100 text-green-800"
  else if String.eqb status "failed" then "bg-red-100 text-red-800"
  else if String.eqb status "processing" then "bg-blue-100 text-blue-800"
  else "bg-yellow-100 text-yellow-800".

(** What the card renders, element by element. The download button carries
    the arguments its [onClick] passes to [onDownload]. *)
Record Card := mkCard {
  title : string;
  created_line : string;
  completed_line : option string;
  status_icon : Icon;
  badge_class : string;
  badge_text : string;
  error_box : option string;
  id_line : string;
  download_button : option (string * string)
}.

Section Render.

(** [formatDistanceToNow] of [utils/dateUtils], which the card imports. *)
Variable formatDistanceToNow : string -> string.

Definition render (video : Video) : Card :=
  {| title := filename video;
     created_line := "Created " ++ formatDistanceToNow (created_at video) ++ " ago";
     completed_line :=
       JS.when_truthy (completed_at video)
         (fun t => "Completed " ++ formatDistanceToNow t ++ " ago");
     status_icon := getStatusIcon (status video);
     badge_class :=
       "px-2 py-1 text-xs font-medium rounded-full " ++ getStatusColor (status video);
     badge_text := getStatusText (status video);
     error_box := JS.when_truthy (error video) (fun e => e);
     id_line := "ID: " ++ JS.slice0 8 (id video) ++ "...";
     download_button :=
       if String.eqb (status video) "completed"
       then JS.when_truthy (captioned_video_url video) (fun u => (u, filename video))
       else None |}.

End Render.

End VideoCard.

(** ** src/contexts/ApiContext.tsx *)

Module ApiContext.

(** An axios request configuration; [D] is the type of the request body.
    The headers object is a map from header name to value. *)
Record RequestConfig (D : Type) := mkConfig {
  url : string;
  method : string;
  baseURL : string;
  headers : gmap string string;
  data : option D
}.
Arguments mkConfig {D}.
Arguments url {D}.
Arguments method {D}.
Arguments baseURL {D}.
Arguments headers {D}.
Arguments data {D}.

(** [config.headers.Authorization = v], the one assignment of the request
    interceptor. *)
Definition set_Authorization {D : Type} (v : string) (config : RequestConfig D) : RequestConfig D :=
  {| url := url config;
     method := method config;
     baseURL := baseURL config;
     headers := <["Authorization" := v]> (headers config);
     data := data config |}.

Section Api.

(** [import.meta.env.VITE_API_URL]. *)
Variable VITE_API_URL : option string.

(** What awaiting [getIdToken()] of the auth context gives: the signed-in
    user's ID token, [null] when nobody is signed in, or a rejection. *)
Variable getIdToken : JS.Promise (option string).

(** The defaults given to [axios.create]. *)
Definition default_baseURL : string :=
  match VITE_API_URL with
  | Some u => if JS.truthy (Some u) then u else "http://localhost:8000"
  | None => "http://localhost:8000"
  end.

Definition default_headers : gmap string string :=
  {[ "Content-Type" := "application/json" ]}.

(** The header axios itself sends with every request unless the caller
    overrides it (its library default for all methods). *)
Definition axios_headers : gmap string string :=
  {[ "Accept" := "application/json, text/plain, */*" ]}.

(** The fulfilled handler of [api.interceptors.request.use]. *)
Definition requestInterceptor {D : Type} (config : RequestConfig D) : JS.Promise (RequestConfig D) :=
  match getIdToken with
  | JS.Rejected reason => JS.Rejected reason
  | JS.Resolved token =>
      match token with
      | Some t =>
          if JS.truthy (Some t)
          then JS.Resolved (set_Authorization ("Bearer " ++ t) config)
          else JS.Resolved config
      | None => JS.Resolved config
      end
  end.

(** [api.post(url, data, { headers })]: the call's headers are laid over the
    instance defaults, these over the library's, and the request goes
    through the request interceptor before it is dispatched. The result is
    the request as dispatched. *)
Definition post {D : Type} (u : string) (body : D) (hs : gmap string string)
  : JS.Promise (RequestConfig D) :=
  requestInterceptor
    {| url := u;
       method := "post";
       baseURL := default_baseURL;
       headers := hs ∪ default_headers ∪ axios_headers;
       data := Some body |}.

End Api.

(** What the client reads of an HTTP response: its status and the [detail]
    of its body, a JSON value, when the body has one. *)
Record Response := mkResponse {
  http_status : Z;
  data_detail : option JS.json
}.

(** An error as the response interceptor and the callers see it:
    [error.response] is defined when the server answered, undefined for a
    network failure and for a rejection raised before dispatch. *)
Record ApiError := mkError {
  response : option Response;
  message : string
}.

(** The rejected handler of [api.interceptors.response.use]: it logs on a
    401 and rejects with the error it was given. The log lines are the
    first component. *)
Definition responseRejected (error : ApiError) : list string * ApiError :=
  (match response error with
   | Some r => if (http_status r =? 401)%Z then ["Unauthorized access"] else []
   | None => []
   end,
   error).

(** The fulfilled handler of [api.interceptors.response.use]. *)
Definition responseFulfilled (r : Response) : Response := r.

(** The far end of a request: the server answers, or cannot be reached. *)
Inductive Reply :=
| Answered (r : Response)
| Unreachable (reason : string).

(** How a call through [api] ends. *)
Inductive Settled :=
| Fulfilled (r : Response)
| Failed (error : ApiError).

(** One call through [api]: the requests that left the client, the lines
    logged to the console, and how the call ended. *)
Record Exchange (D : Type) := mkExchange {
  dispatched : list (RequestConfig D);
  console : list string;
  settled : Settled
}.
Arguments mkExchange {D}.
Arguments dispatched {D}.
Arguments console {D}.
Arguments settled {D}.

(** A request that has been through the request interceptor is dispatched
    unless the interceptor rejected; axios fulfils the call on an answer
    with a 2xx status and otherwise fails it with an error that carries the
    answer, or no response when the server was not reached; the outcome
    then goes through the response interceptor. *)
Definition exchange {D : Type} (server : RequestConfig D -> Reply)
    (intercepted : JS.Promise (RequestConfig D)) : Exchange D :=
  match intercepted with
  | JS.Rejected reason =>
      let '(logged, error) := responseRejected {| response := None; message := reason |} in
      {| dispatched := []; console := logged; settled := Failed error |}
  | JS.Resolved sent =>
      match server sent with
      | Answered r =>
          if ((200 <=? http_status r) && (http_status r <? 300))%Z
          then {| dispatched := [sent]; console := [];
                  settled := Fulfilled (responseFulfilled r) |}
          else
            let '(logged, error) :=
              responseRejected
                {| response := Some r;
                   message := "Request failed with status code "
                              ++ JS.toString (JS.Num (http_status r)) |} in
            {| dispatched := [sent]; console := logged; settled := Failed error |}
      | Unreachable reason =>
          let '(logged, error) :=
            responseRejected {| response := None; message := reason |} in
          {| dispatched := [sent]; console := logged; settled := Failed error |}
      end
  end.

End ApiContext.

(** ** src/pages/Upload.tsx *)

Module Upload.

Record CaptionStyle := mkStyle {
  font_type : string;
  font_size : JS.number;
  font_color : string;
  stroke_color : string;
  stroke_width : JS.number;
  padding : JS.number
}.

(** A browser [File]: what the form reads of it. *)
Record File := mkFile {
  name : string;
  type : string;
  size : N
}.

Inductive UploadMethod := file | url.

(** The component state, one field per [useState]. *)
Record State := mkState {
  uploadMethod : UploadMethod;
  selectedFile : option File;
  videoUrl : string;
  isUploading : bool;
  dragOver : bool;
  captionStyle : CaptionStyle
}.

Definition initialStyle : CaptionStyle :=
  {| font_type := "Arial";
     font_size := JS.Num 24;
     font_color := "#FFFFFF";
     stroke_color := "#000000";
     stroke_width := JS.Num 2;
     padding := JS.Num 10 |}.

Definition initialState : State :=
  {| uploadMethod := file;
     selectedFile := None;
     videoUrl := "";
     isUploading := false;
     dragOver := false;
     captionStyle := initialStyle |}.

(** A [FormData] entry value is text or a file; entries keep the order of
    the [append] calls. *)
Inductive FormValue :=
| Text (s : string)
| Blob (f : File).

Definition FormData := list (string * FormValue).

(** What a handler does besides updating the state. *)
Inductive Effect :=
| Alert (message : string)
| Post (path : string) (body : FormData) (headers : gmap string string)
| Navigate (path : string) (message : option string).

(** The state setters. *)
Definition setUploadMethod (m : UploadMethod) (st : State) : State :=
  {| uploadMethod := m; selectedFile := selectedFile st; videoUrl := videoUrl st;
     isUploading := isUploading st; dragOver := dragOver st; captionStyle := captionStyle st |}.

Definition setSelectedFile (f : option File) (st : State) : State :=
  {| uploadMethod := uploadMethod st; selectedFile := f; videoUrl := videoUrl st;
     isUploading := isUploading st; dragOver := dragOver st; captionStyle := captionStyle st |}.

Definition setVideoUrl (v : string) (st : State) : State :=
  {| uploadMethod := uploadMethod st; selectedFile := selectedFile st; videoUrl := v;
     isUploading := isUploading st; dragOver := dragOver st; captionStyle := captionStyle st |}.

Definition setIsUploading (b : bool) (st : State) : State :=
  {| uploadMethod := uploadMethod st; selectedFile := selectedFile st; videoUrl := videoUrl st;
     isUploading := b; dragOver := dragOver st; captionStyle := captionStyle st |}.

Definition setDragOver (b : bool) (st : State) : State :=
  {| uploadMethod := uploadMethod st; selectedFile := selectedFile st; videoUrl := videoUrl st;
     isUploading := isUploading st; dragOver := b; captionStyle := captionStyle st |}.

Definition setCaptionStyle (c : CaptionStyle) (st : State) : State :=
  {| uploadMethod := uploadMethod st; selectedFile := selectedFile st; videoUrl := videoUrl st;
     isUploading := isUploading st; dragOver := dragOver st; captionStyle := c |}.

(** [handleFileSelect]. *)
Definition handleFileSelect (f : File) (st : State) : State * list Effect :=
  if JS.startsWith (type f) "video/"
  then (setSelectedFile (Some f) st, [])
  else (st, [Alert "Please select a valid video file"]).

(** [handleFileDrop]: [files] is [Array.from(e.dataTransfer.files)]. *)
Definition handleFileDrop (files : list File) (st : State) : State * list Effect :=
  let st1 := setDragOver false st in
  match files with
  | f :: _ => handleFileSelect f st1
  | [] => (st1, [])
  end.

(** [handleFileChange]: [files] is [e.target.files], which may be [null]. *)
Definition handleFileChange (files : option (list File)) (st : State) : State * list Effect :=
  match files with
  | Some (f :: _) => handleFileSelect f st
  | _ => (st, [])
  end.

(** The value an [<input type="range" min max>] reports after the thumb is
    moved towards [pos]: the browser keeps the control's value a number
    between [min] and [max] (on the default step of 1) and hands it to
    [onChange] as decimal text. *)
Definition range_value (min max pos : Z) : string :=
  JS.toString (JS.Num (Z.max min (Z.min max pos))).

(** The [onChange] handlers of the styling controls; [v] is [e.target.value]. *)
Definition onFontTypeChange (v : string) (st : State) : State :=
  let c := captionStyle st in
  setCaptionStyle
    {| font_type := v; font_size := font_size c; font_color := font_color c;
       stroke_color := stroke_color c; stroke_width := stroke_width c; padding := padding c |} st.

Definition onFontSizeChange (v : string) (st : State) : State :=
  let c := captionStyle st in
  setCaptionStyle
    {| font_type := font_type c; font_size := JS.parseInt v; font_color := font_color c;
       stroke_color := stroke_color c; stroke_width := stroke_width c; padding := padding c |} st.

Definition onPaddingChange (v : string) (st : State) : State :=
  let c := captionStyle st in
  setCaptionStyle
    {| font_type := font_type c; font_size := font_size c; font_color := font_color c;
       stroke_color := stroke_color c; stroke_width := stroke_width c; padding := JS.parseInt v |} st.

Definition onFontColorChange (v : string) (st : State) : State :=
  let c := captionStyle st in
  setCaptionStyle
    {| font_type := font_type c; font_size := font_size c; font_color := v;
       stroke_color := stroke_color c; stroke_width := stroke_width c; padding := padding c |} st.

Definition onStrokeColorChange (v : string) (st : State) : State :=
  let c := captionStyle st in
  setCaptionStyle
    {| font_type := font_type c; font_size := font_size c; font_color := font_color c;
       stroke_color := v; stroke_width := stroke_width c; padding := padding c |} st.

Definition onStrokeWidthChange (v : string) (st : State) : State :=
  let c := captionStyle st in
  setCaptionStyle
    {| font_type := font_type c; font_size := font_size c; font_color := font_color c;
       stroke_color := stroke_color c; stroke_width := JS.parseInt v; padding := padding c |} st.

(** [Object.entries(captionStyle)] with [value.toString()] applied, in the
    order the keys were written. *)
Definition style_entries (c : CaptionStyle) : FormData :=
  [ ("font_type", Text (font_type c));
    ("font_size", Text (JS.toString (font_size c)));
    ("font_color", Text (font_color c));
    ("stroke_color", Text (stroke_color c));
    ("stroke_width", Text (JS.toString (stroke_width c)));
    ("padding", Text (JS.toString (padding c))) ].

(** The entry for the video source that [handleSubmit] appends first. *)
Definition source_entries (st : State) : FormData :=
  match uploadMethod st, selectedFile st with
  | file, Some f => [("video_file", Blob f)]
  | file, None => []
  | url, _ =>
      if JS.truthy (Some (videoUrl st)) then [("video_url", Text (videoUrl st))] else []
  end.

(** How the awaited [api.post] ends: it resolves, or it rejects with an
    error whose [response?.data?.detail], when it is a text, may be
    missing. *)
Inductive PostOutcome :=
| PostResolved
| PostRejected (detail : option string).

(** [handleSubmit] run to its end, with the outcome of the request it
    awaits: the guard, the request and what follows it are one step, the
    state is the one the form has once the call has settled, and the
    console is left out. [Client] and [Page] below take the handler apart
    at its [await] and keep the console. *)
Definition handleSubmit (outcome : PostOutcome) (st : State) : State * list Effect :=
  if (negb (bool_decide (is_Some (selectedFile st))) && negb (JS.truthy (Some (videoUrl st))))%bool
  then (st, [Alert "Please select a video file or enter a video URL"])
  else
    let formData := (source_entries st ++ style_entries (captionStyle st))%list in
    let request := Post "/api/caption" formData {[ "Content-Type" := "multipart/form-data" ]} in
    let after :=
      match outcome with
      | PostResolved =>
          Navigate "/" (Some "Video uploaded successfully! Processing will begin shortly.")
      | PostRejected detail =>
          Alert (if JS.truthy detail then default "" detail else "Upload failed. Please try again.")
      end in
    (setIsUploading false (setIsUploading true st), [request; after]).

(** What the user can do on the page. A slider event carries the position
    the thumb was dragged to; the control turns it into [e.target.value]. *)
Inductive Event :=
| ClickUploadMethod (m : UploadMethod)
| DragOverZone
| DragLeaveZone
| DropFiles (files : list File)
| ChooseFiles (files : option (list File))
| TypeVideoUrl (v : string)
| SelectFontType (v : string)
| SlideFontSize (pos : Z)
| SlidePadding (pos : Z)
| TypeFontColor (v : string)
| TypeStrokeColor (v : string)
| SlideStrokeWidth (pos : Z)
| SubmitForm (outcome : PostOutcome)
| ClickCancel.

Definition handle (e : Event) (st : State) : State * list Effect :=
  match e with
  | ClickUploadMethod m => (setUploadMethod m st, [])
  | DragOverZone => (setDragOver true st, [])
  | DragLeaveZone => (setDragOver false st, [])
  | DropFiles files => handleFileDrop files st
  | ChooseFiles files => handleFileChange files st
  | TypeVideoUrl v => (setVideoUrl v st, [])
  | SelectFontType v => (onFontTypeChange v st, [])
  | SlideFontSize pos => (onFontSizeChange (range_value 12 72 pos) st, [])
  | SlidePadding pos => (onPaddingChange (range_value 0 50 pos) st, [])
  | TypeFontColor v => (onFontColorChange v st, [])
  | TypeStrokeColor v => (onStrokeColorChange v st, [])
  | SlideStrokeWidth pos => (onStrokeWidthChange (range_value 0 10 pos) st, [])
  | SubmitForm outcome => handleSubmit outcome st
  | ClickCancel => (st, [Navigate "/" None])
  end.

(** A session on the page: the events in order, from a state, with the
    effects they had. *)
Fixpoint run (events : list Event) (st : State) : State * list Effect :=
  match events with
  | [] => (st, [])
  | e :: rest =>
      let '(st1, fx1) := handle e st in
      let '(st2, fx2) := run rest st1 in
      (st2, (fx1 ++ fx2)%list)
  end.

(** The text of a form entry, looked up by key. *)
Fixpoint entry (key : string) (body : FormData) : option FormValue :=
  match body with
  | [] => None
  | (k, v) :: rest => if String.eqb k key then Some v else entry key rest
  end.

(** The guard at the head of [handleSubmit]: no file and no URL. *)
Definition lacksSource (st : State) : bool :=
  (negb (bool_decide (is_Some (selectedFile st))) && negb (JS.truthy (Some (videoUrl st))))%bool.

(** The [disabled] attribute of the submit button. *)
Definition submitDisabled (st : State) : bool :=
  (isUploading st || lacksSource st)%bool.

(** The events the rendered page lets the user cause: the drop zone is
    rendered on the file tab only, and its Click to upload button, which
    opens the file picker, only while no file is selected; the URL field is
    rendered on the URL tab only; a disabled submit button submits
    nothing. *)
Definition available (e : Event) (st : State) : bool :=
  match e with
  | DragOverZone | DragLeaveZone | DropFiles _ =>
      match uploadMethod st with file => true | url => false end
  | ChooseFiles _ =>
      match uploadMethod st with
      | file => negb (bool_decide (is_Some (selectedFile st)))
      | url => false
      end
  | TypeVideoUrl _ =>
      match uploadMethod st with url => true | file => false end
  | SubmitForm _ => negb (submitDisabled st)
  | _ => true
  end.

(** A session the page allows: each event is available when it happens. *)
Fixpoint possible (events : list Event) (st : State) : bool :=
  match events with
  | [] => true
  | e :: rest => (available e st && possible rest (fst (handle e st)))%bool
  end.

End Upload.

(** ** The upload form and the shared axios instance together *)

Module Client.

(** A line on the console: a text, or a label with an error object. *)
Inductive ConsoleEntry :=
| Logged (text : string)
| LoggedError (label : string) (error : ApiContext.ApiError).

(** [error.response?.data?.detail]. *)
Definition detail_of (error : ApiContext.ApiError) : option JS.json :=
  match ApiContext.response error with
  | Some r => ApiContext.data_detail r
  | None => None
  end.

(** The argument of [alert] in the [catch] block:
    [error.response?.data?.detail || 'Upload failed. Please try again.'],
    as the text [alert] shows. *)
Definition alert_text (error : ApiContext.ApiError) : string :=
  match detail_of error with
  | Some v => if JS.json_truthy v then JS.json_toString v
              else "Upload failed. Please try again."
  | None => "Upload failed. Please try again."
  end.

(** [handleSubmit] up to its [await]: the guard, then [setIsUploading(true)]
    and the call of [api.post] with the form data. The flag tells whether
    the call was made. *)
Definition before_await (st : Upload.State) : Upload.State * list Upload.Effect * bool :=
  if Upload.lacksSource st
  then (st, [Upload.Alert "Please select a video file or enter a video URL"], false)
  else (Upload.setIsUploading true st,
        [Upload.Post "/api/caption"
           (Upload.source_entries st ++ Upload.style_entries (Upload.captionStyle st))%list
           {[ "Content-Type" := "multipart/form-data" ]}],
        true).

(** [handleSubmit] from its [await] on, in the state the page is in when
    the call settles: the rest of the [try] block, or the [catch] block
    with its [console.error], and then [finally]. *)
Definition after_await (s : ApiContext.Settled) (st : Upload.State)
  : Upload.State * list Upload.Effect * list ConsoleEntry :=
  match s with
  | ApiContext.Fulfilled _ =>
      (Upload.setIsUploading false st,
       [Upload.Navigate "/"
          (Some "Video uploaded successfully! Processing will begin shortly.")],
       [])
  | ApiContext.Failed error =>
      (Upload.setIsUploading false st,
       [Upload.Alert (alert_text error)],
       [LoggedError "Upload error:" error])
  end.

Section Submit.

Variable VITE_API_URL : option string.
Variable getIdToken : JS.Promise (option string).
Variable server : ApiContext.RequestConfig Upload.FormData -> ApiContext.Reply.

(** The call [handleSubmit] awaits, made through the [api] instance. *)
Definition caption_exchange (st : Upload.State) : ApiContext.Exchange Upload.FormData :=
  ApiContext.exchange server
    (ApiContext.post VITE_API_URL getIdToken "/api/caption"
       (Upload.source_entries st ++ Upload.style_entries (Upload.captionStyle st))%list
       {[ "Content-Type" := "multipart/form-data" ]}).

(** [handleSubmit] with its request carried out and nothing happening in
    between: the new state, the effects on the page, and the exchange with
    the server when there was a call. *)
Definition submit (st : Upload.State)
  : Upload.State * list Upload.Effect * option (ApiContext.Exchange Upload.FormData) :=
  let '(st1, fx1, called) := before_await st in
  if called then
    let '(st2, fx2, _) := after_await (ApiContext.settled (caption_exchange st)) st1 in
    (st2, (fx1 ++ fx2)%list, Some (caption_exchange st))
  else (st1, fx1, None).

(** The console after such a submission: the lines of the response
    interceptor, then those of the [catch] block. *)
Definition submit_console (st : Upload.State) : list ConsoleEntry :=
  let '(st1, _, called) := before_await st in
  if called then
    (map Logged (ApiContext.console (caption_exchange st))
     ++ snd (after_await (ApiContext.settled (caption_exchange st)) st1))%list
  else [].

End Submit.

End Client.

(** ** The upload page while requests are in flight *)

Module Page.

(** The page: the form, the calls of [api.post] not yet settled, and
    whether the page has been left (a [navigate] unmounts it). *)
Record View := mkView {
  form : Upload.State;
  awaiting : nat;
  left : bool
}.

Definition initialView : View :=
  {| form := Upload.initialState; awaiting := 0; left := false |}.

(** What happens on the page: a user event other than a submission, the
    form being submitted (the submit button, or Enter in a text field), and
    a call of [api.post] settling. *)
Inductive Step :=
| Act (e : Upload.Event)
| Press
| Answer (s : ApiContext.Settled).

Definition is_navigate (fx : Upload.Effect) : bool :=
  match fx with Upload.Navigate _ _ => true | _ => false end.

Definition step (s : Step) (v : View) : View * list Upload.Effect * list Client.ConsoleEntry :=
  match s with
  | Act e =>
      let '(st, fx) := Upload.handle e (form v) in
      ({| form := st; awaiting := awaiting v;
          left := (left v || existsb is_navigate fx)%bool |}, fx, [])
  | Press =>
      let '(st, fx, called) := Client.before_await (form v) in
      ({| form := st; awaiting := (if called then S (awaiting v) else awaiting v);
          left := left v |}, fx, [])
  | Answer s =>
      let '(st, fx, logged) := Client.after_await s (form v) in
      ({| form := st; awaiting := Nat.pred (awaiting v);
          left := (left v || existsb is_navigate fx)%bool |}, fx, logged)
  end.

Section Allowed.

(** Whether the browser takes a text for a valid URL: the URL field has
    [type="url"], and a form whose rendered URL field holds a text that is
    neither empty nor a valid URL is not submitted. *)
Variable valid_url : string -> bool.

(** The steps the page allows: user events as the rendered controls permit
    them, on a page that has not been left; a submission while the submit
    button is enabled and the form is valid; an answer while a call is
    awaited. *)
Definition allowed (s : Step) (v : View) : bool :=
  match s with
  | Act (Upload.SubmitForm _) => false
  | Act e => (negb (left v) && Upload.available e (form v))%bool
  | Press =>
      (negb (left v) && negb (Upload.submitDisabled (form v))
       && match Upload.uploadMethod (form v) with
          | Upload.url =>
              String.eqb (Upload.videoUrl (form v)) "" || valid_url (Upload.videoUrl (form v))
          | Upload.file => true
          end)%bool
  | Answer _ => Nat.ltb 0 (awaiting v)
  end.

(** A run of steps, each allowed when it happens: the final view with all
    effects and console lines, or nothing when a step was not allowed. *)
Fixpoint play (steps : list Step) (v : View)
  : option (View * list Upload.Effect * list Client.ConsoleEntry) :=
  match steps with
  | [] => Some (v, [], [])
  | s :: rest =>
      if allowed s v then
        let '(v1, fx1, log1) := step s v in
        match play rest v1 with
        | Some (v2, fx2, log2) => Some (v2, (fx1 ++ fx2)%list, (log1 ++ log2)%list)
        | None => None
        end
      else None
  end.

End Allowed.

End Page.

(** ** Routing: App.tsx, ProtectedRoute.tsx, Login.tsx, Layout.tsx *)

Module Routes.

(** What the auth context gives of the signed-in user. *)
Record User := mkUser {
  displayName : option string;
  email : option string
}.

(** [useAuth()]: the user, [null] when signed out, and whether the auth
    state is still loading. *)
Record Auth := mkAuth {
  user : option User;
  loading : bool
}.

(** The pages behind [ProtectedRoute]. *)
Inductive Content :=
| Dashboard
| UploadPage.

(** What [Layout] renders around its children: which navigation link is
    highlighted (desktop and mobile use the same test) and the user label. *)
Record LayoutView := mkLayout {
  dashboard_active : bool;
  upload_active : bool;
  mobile_dashboard_active : bool;
  mobile_upload_active : bool;
  user_label : option string
}.

(** What a route element renders. *)
Inductive Element :=
| Spinner
| Navigate (to : string)
| LoginPage (buttonDisabled : bool) (buttonText : string)
| Page (layout : LayoutView) (content : Content)
| Nothing.

(** [isActive] of [Layout]. *)
Definition isActive (pathname path : string) : bool := String.eqb pathname path.

(** [user?.displayName || user?.email]. *)
Definition userLabel (u : option User) : option string :=
  match u with
  | Some x => if JS.truthy (displayName x) then displayName x else email x
  | None => None
  end.

Definition Layout (auth : Auth) (pathname : string) (children : Content) : Element :=
  Page {| dashboard_active := isActive pathname "/";
          upload_active := isActive pathname "/upload";
          mobile_dashboard_active := isActive pathname "/";
          mobile_upload_active := isActive pathname "/upload";
          user_label := userLabel (user auth) |}
       children.

Definition ProtectedRoute (auth : Auth) (children : Element) : Element :=
  if loading auth then Spinner
  else match user auth with
       | None => Navigate "/login"
       | Some _ => children
       end.

(** The [Login] page; [isSigningIn] is its own state. *)
Definition Login (auth : Auth) (isSigningIn : bool) : Element :=
  if (negb (loading auth) && bool_decide (is_Some (user auth)))%bool then Navigate "/"
  else if loading auth then Spinner
  else LoginPage isSigningIn (if isSigningIn then "Signing in..." else "Sign in with Google").

(** How the router compares a location with a route path: letter case is
    ignored, and so are slashes at the end. The location is the path as
    the router reads it, with percent escapes already decoded. *)
Definition lower (c : ascii) : ascii :=
  let n := nat_of_ascii c in
  if (Nat.leb 65 n && Nat.leb n 90)%bool then ascii_of_nat (n + 32) else c.

Fixpoint lower_case (s : string) : string :=
  match s with
  | String c r => String (lower c) (lower_case r)
  | EmptyString => EmptyString
  end.

Fixpoint strip_slashes (s : string) : string :=
  match s with
  | String c r =>
      match strip_slashes r with
      | EmptyString => if Ascii.eqb c "/" then EmptyString else String c EmptyString
      | t => String c t
      end
  | EmptyString => EmptyString
  end.

Definition route_matches (path pathname : string) : bool :=
  String.eqb (lower_case (strip_slashes pathname)) (lower_case (strip_slashes path)).

(** The route table of [App]; a location that matches no route renders
    nothing. *)
Definition App (auth : Auth) (isSigningIn : bool) (pathname : string) : Element :=
  if route_matches "/login" pathname then Login auth isSigningIn
  else if route_matches "/" pathname
  then ProtectedRoute auth (Layout auth pathname Dashboard)
  else if route_matches "/upload" pathname
  then ProtectedRoute auth (Layout auth pathname UploadPage)
  else Nothing.

(** Following [Navigate] elements: the location after at most [fuel]
    redirects, and what is rendered there. *)
Fixpoint settle (fuel : nat) (auth : Auth) (isSigningIn : bool) (pathname : string)
  : string * Element :=
  match App auth isSigningIn pathname with
  | Navigate to =>
      match fuel with
      | O => (pathname, Navigate to)
      | S n => settle n auth isSigningIn to
      end
  | shown => (pathname, shown)
  end.

End Routes.

(** ** The captioning core

    The client posts to a FastAPI backend whose code is not among the client
    sources. The definitions of this module follow the design specification
    of that core; each one is marked. *)

Module Core.

(** Modelled from the spec: the [status] field of a Job (section 3); the
    orchestrator's source file is missing. *)
Inductive Status :=
| pending
| extracting_audio
| transcribing
| rendering
| completed
| failed.

(** Modelled from the spec: the error taxonomy of section 7; the core's
    error module is missing. *)
Inductive ErrorKind :=
| UnsupportedFormat
| CorruptMedia
| TranscriptionFailed
| EmptyTranscript
| RenderFailed
| StyleInvalid
| Cancelled
| NotFound
| ArtifactUnavailable.

(** Modelled from the spec: the kinds section 7 marks retryable. *)
Definition retryable (k : ErrorKind) : bool :=
  match k with
  | TranscriptionFailed | RenderFailed | ArtifactUnavailable => true
  | _ => false
  end.

(** A result or a failure with its kind and message. *)
Inductive result (A : Type) :=
| Ok (a : A)
| Err (kind : ErrorKind) (message : string).
Arguments Ok {A} a.
Arguments Err {A} kind message.

(** Modelled from the spec: the terminal states of the glossary. *)
Definition is_terminal (s : Status) : bool :=
  match s with
  | completed | failed => true
  | _ => false
  end.

(** Modelled from the spec: the place of a status in the fixed stage order
    [pending, extracting_audio, transcribing, rendering]; a terminal status
    is not a stage. *)
Definition stage_index (s : Status) : option nat :=
  match s with
  | pending => Some 0
  | extracting_audio => Some 1
  | transcribing => Some 2
  | rendering => Some 3
  | completed | failed => None
  end.

(** Modelled from the spec: the stage that follows a successful one; the
    last stage, rendering, is followed by [completed]. *)
Definition next_status (s : Status) : Status :=
  match s with
  | pending => extracting_audio
  | extracting_audio => transcribing
  | transcribing => rendering
  | rendering => completed
  | completed => completed
  | failed => failed
  end.

(** Modelled from the spec: CaptionStyle of section 3. *)
Record CaptionStyle := mkStyle {
  font_family : string;
  font_size : Z;
  font_color : string;
  stroke_color : string;
  stroke_width : Z;
  padding : Z
}.

(** References into the artifact store and job identifiers are opaque. *)
Definition Ref := N.
Definition JobId := N.
Definition Timestamp := N.

(** Modelled from the spec: the Job record of section 3. *)
Record Job := mkJob {
  id : JobId;
  status : Status;
  source_ref : Ref;
  style : CaptionStyle;
  created_at : Timestamp;
  completed_at : option Timestamp;
  error : option (ErrorKind * string);
  result_ref : option Ref
}.

(** *** Job Orchestrator (section 4.1) *)

(** What the orchestrator keeps for a job besides its record: the retries
    spent on the stage in progress and the cancellation mark. *)
Record Tracked := mkTracked {
  job : Job;
  retries_used : nat;
  cancel_requested : bool
}.

Record Orchestrator := mkOrchestrator {
  jobs : gmap N Tracked;
  next_id : N
}.

Definition empty_orchestrator : Orchestrator :=
  {| jobs := ∅; next_id := 0%N |}.

(** Modelled from the spec: [submit(source_ref, style) -> job_id] creates a
    Job in [pending] under a fresh identifier. *)
Definition submit (src : Ref) (st : CaptionStyle) (now : Timestamp) (o : Orchestrator)
  : JobId * Orchestrator :=
  let j := {| id := next_id o; status := pending; source_ref := src; style := st;
              created_at := now; completed_at := None; error := None; result_ref := None |} in
  (next_id o,
   {| jobs := <[next_id o := {| job := j; retries_used := 0; cancel_requested := false |}]> (jobs o);
      next_id := N.succ (next_id o) |}).

(** Modelled from the spec: [get_status(job_id) -> Job], a pure read that
    fails with [NotFound] on an unknown identifier. *)
Definition get_status (i : JobId) (o : Orchestrator) : result Job :=
  match jobs o !! i with
  | Some t => Ok (job t)
  | None => Err NotFound "unknown job id"
  end.

(** What happens to a job while the worker runs it. *)
Inductive StageEvent :=
| Begin
| Succeeded (artifact : Ref) (now : Timestamp)
| Failed (kind : ErrorKind) (message : string)
| RequestCancel.

Definition with_status (s : Status) (j : Job) : Job :=
  {| id := id j; status := s; source_ref := source_ref j; style := style j;
     created_at := created_at j; completed_at := completed_at j;
     error := error j; result_ref := result_ref j |}.

(** Modelled from the spec: a job moves to [failed] with the error kind and
    message recorded; its [result_ref] is never set. *)
Definition fail_job (k : ErrorKind) (msg : string) (j : Job) : Job :=
  {| id := id j; status := failed; source_ref := source_ref j; style := style j;
     created_at := created_at j; completed_at := completed_at j;
     error := Some (k, msg); result_ref := None |}.

(** Modelled from the spec: on success of the final stage the orchestrator
    sets [status = completed], [completed_at] and [result_ref]. *)
Definition complete_job (r : Ref) (now : Timestamp) (j : Job) : Job :=
  {| id := id j; status := completed; source_ref := source_ref j; style := style j;
     created_at := created_at j; completed_at := Some now;
     error := None; result_ref := Some r |}.

Section Worker.

(** The bound on automatic retries of a stage (the spec's default is 1). *)
Variable max_retries : nat.

(** Modelled from the spec: between two stages the orchestrator checks the
    cancellation mark and either fails the job with [Cancelled] or records
    the next stage before its work begins. *)
Definition enter_next_stage (t : Tracked) : Tracked :=
  if cancel_requested t
  then {| job := fail_job Cancelled "cancelled" (job t); retries_used := 0;
          cancel_requested := true |}
  else {| job := with_status (next_status (status (job t))) (job t); retries_used := 0;
          cancel_requested := false |}.

(** Modelled from the spec: the orchestrator's state machine for one job
    (4.1, 5 and 7). No event changes a job in a terminal state. *)
Definition advance (e : StageEvent) (t : Tracked) : Tracked :=
  match status (job t) with
  | completed | failed => t
  | pending =>
      match e with
      | Begin => enter_next_stage t
      | RequestCancel =>
          {| job := job t; retries_used := retries_used t; cancel_requested := true |}
      | Succeeded _ _ | Failed _ _ => t
      end
  | extracting_audio | transcribing | rendering =>
      match e with
      | Begin => t
      | RequestCancel =>
          {| job := job t; retries_used := retries_used t; cancel_requested := true |}
      | Succeeded r now =>
          match status (job t) with
          | rendering =>
              {| job := complete_job r now (job t); retries_used := 0;
                 cancel_requested := cancel_requested t |}
          | _ => enter_next_stage t
          end
      | Failed k msg =>
          if (retryable k && Nat.ltb (retries_used t) max_retries)%bool
          then {| job := job t; retries_used := S (retries_used t);
                  cancel_requested := cancel_requested t |}
          else {| job := fail_job k msg (job t); retries_used := retries_used t;
                  cancel_requested := cancel_requested t |}
      end
  end.

(** What reaches the orchestrator: a submission, or an event of a job. *)
Inductive Command :=
| Submit (src : Ref) (st : CaptionStyle) (now : Timestamp)
| Notify (i : JobId) (e : StageEvent).

Definition execute (c : Command) (o : Orchestrator) : Orchestrator :=
  match c with
  | Submit src st now => snd (submit src st now o)
  | Notify i e =>
      match jobs o !! i with
      | Some t => {| jobs := <[i := advance e t]> (jobs o); next_id := next_id o |}
      | None => o
      end
  end.

Fixpoint run (cs : list Command) (o : Orchestrator) : Orchestrator :=
  match cs with
  | [] => o
  | c :: rest => run rest (execute c o)
  end.

End Worker.

End Core.

(** * The vocabulary of the properties

    The predicates in which the properties below are stated, and the sample
    inputs on which they are tried. *)

Module VideoCardSpec.

Import VideoCard.

(** The status values the card renders in a way of their own. *)
Definition recognised (s : string) : bool :=
  (String.eqb s "completed" || String.eqb s "failed" || String.eqb s "processing")%bool.

End VideoCardSpec.

Module ApiContextSpec.

Import ApiContext.


End ApiContextSpec.

Module UploadSpec.

Import Upload.

(** The bounds of the three sliders. *)
Definition style_in_range (c : CaptionStyle) : Prop :=
  exists fs sw pd : Z,
    font_size c = JS.Num fs /\ stroke_width c = JS.Num sw /\ padding c = JS.Num pd /\
    (12 <= fs <= 72)%Z /\ (0 <= sw <= 10)%Z /\ (0 <= pd <= 50)%Z.

(** The same bounds, read off the entries of a submitted form. *)
Definition body_in_range (body : FormData) : Prop :=
  exists fs sw pd : Z,
    entry "font_size" body = Some (Text (JS.toString (JS.Num fs))) /\
    entry "stroke_width" body = Some (Text (JS.toString (JS.Num sw))) /\
    entry "padding" body = Some (Text (JS.toString (JS.Num pd))) /\
    (12 <= fs <= 72)%Z /\ (0 <= sw <= 10)%Z /\ (0 <= pd <= 50)%Z.

(** The selected file, if any, is a video. *)
Definition selection_is_video (st : State) : Prop :=
  forall f, selectedFile st = Some f -> JS.startsWith (type f) "video/" = true.

Definition body_file_is_video (body : FormData) : Prop :=
  forall f, entry "video_file" body = Some (Blob f) -> JS.startsWith (type f) "video/" = true.

(** A session: the user picks a video, drags the font size slider past its
    end and the stroke width slider below zero, and submits. *)
Definition talk_mp4 : File := {| name := "talk.mp4"; type := "video/mp4"; size := 1048576 |}.

Definition notes_pdf : File := {| name := "notes.pdf"; type := "application/pdf"; size := 2048 |}.

Definition session : list Event :=
  [ChooseFiles (Some [talk_mp4]); SlideFontSize 100; SlideStrokeWidth (-3);
   SubmitForm PostResolved].

Definition session_body : FormData :=
  [ ("video_file", Blob talk_mp4);
    ("font_type", Text "Arial");
    ("font_size", Text "72");
    ("font_color", Text "#FFFFFF");
    ("stroke_color", Text "#000000");
    ("stroke_width", Text "0");
    ("padding", Text "10") ].


(** The URL tab is showing, no URL is typed, and a file chosen earlier is
    still selected. *)
Definition url_tab_with_stale_file : State :=
  setUploadMethod url (setSelectedFile (Some talk_mp4) initialState).

(** How many calls of [api.post] a list of effects holds, and whether an
    event is a submission. *)
Definition is_post (fx : Effect) : bool :=
  match fx with Post _ _ _ => true | _ => false end.

Definition is_submission (e : Event) : bool :=
  match e with SubmitForm _ => true | _ => false end.

Definition count_posts (fx : list Effect) : nat := length (List.filter is_post fx).

(** A video in a container other than MP4, AVI and MOV. *)
Definition clip_webm : File := {| name := "clip.webm"; type := "video/webm"; size := 8192 |}.

(** A drop of two files, the first of which is no video. *)
Definition clip_mov : File := {| name := "clip.mov"; type := "video/quicktime"; size := 4096 |}.

End UploadSpec.

Module OrchestratorSpec.

Import Core.

(** A status as a number that grows along the life of a job; the two
    terminal states come last. *)
Definition rank (s : Status) : nat :=
  match s with
  | pending => 0
  | extracting_audio => 1
  | transcribing => 2
  | rendering => 3
  | completed | failed => 4
  end.

(** A job record is consistent when its result reference is set exactly in
    [completed] and its error exactly in [failed]. *)
Definition consistent (j : Job) : Prop :=
  (is_Some (result_ref j) <-> status j = completed) /\
  (is_Some (error j) <-> status j = failed).

(** Identifiers handed out so far are below the next one. *)
Definition ids_below_next (o : Orchestrator) : Prop :=
  forall i t, jobs o !! i = Some t -> (i < next_id o)%N.

(** A job that is submitted, begun, brought to the transcribing stage, and
    whose transcription then fails twice with a retryable error. *)
Definition plain_style : CaptionStyle :=
  {| font_family := "Arial"; font_size := 24; font_color := "#FFFFFF";
     stroke_color := "#000000"; stroke_width := 2; padding := 10 |}.

Definition up_to_transcribing : list Command :=
  [Submit 11%N plain_style 100%N; Notify 0%N Begin; Notify 0%N (Succeeded 12%N 101%N)].

Definition failing_twice : list Command :=
  [Notify 0%N (Failed TranscriptionFailed "engine timeout");
   Notify 0%N (Failed TranscriptionFailed "engine timeout");
   Notify 0%N (Succeeded 13%N 105%N)].

Definition job_transcribing : Job :=
  {| id := 0%N; status := transcribing; source_ref := 11%N; style := plain_style;
     created_at := 100%N; completed_at := None; error := None; result_ref := None |}.

Definition job_failed : Job :=
  {| id := 0%N; status := failed; source_ref := 11%N; style := plain_style;
     created_at := 100%N; completed_at := None;
     error := Some (TranscriptionFailed, "engine timeout"); result_ref := None |}.

End OrchestratorSpec.

Module RoutesSpec.

Import Routes.

(** The three paths of the route table. *)
Definition routes : list string := ["/login"; "/"; "/upload"].

(** A signed-in user without a display name, and the auth states. *)
Definition ada : User := {| displayName := None; email := Some "ada@example.org" |}.

Definition signed_in : Auth := {| user := Some ada; loading := false |}.

Definition signed_out : Auth := {| user := None; loading := false |}.

End RoutesSpec.

Module ClientSpec.

(** The request [handleSubmit] makes from a state. *)
Definition caption_post (st : Upload.State) : Upload.Effect :=
  Upload.Post "/api/caption"
    (Upload.source_entries st ++ Upload.style_entries (Upload.captionStyle st))%list
    {[ "Content-Type" := "multipart/form-data" ]}.

(** The state after a submission: the form as it was, not uploading. *)
Definition after_submit (st : Upload.State) : Upload.State :=
  Upload.setIsUploading false (Upload.setIsUploading true st).

(** The error of a request that failed with the answer [r]. *)
Definition answered_error (r : ApiContext.Response) : ApiContext.ApiError :=
  {| ApiContext.response := Some r;
     ApiContext.message := "Request failed with status code "
                           ++ JS.toString (JS.Num (ApiContext.http_status r)) |}.

(** The error of a request that got no answer: it was rejected before
    dispatch, or the server was not reached. *)
Definition unanswered_error (reason : string) : ApiContext.ApiError :=
  {| ApiContext.response := None; ApiContext.message := reason |}.

(** The validation error of the backend framework: a list of objects. *)
Definition validation_detail : JS.json :=
  JS.JArr [JS.JObj [("loc", JS.JArr [JS.JStr "body"; JS.JStr "font_size"]);
                    ("msg", JS.JStr "value is not a valid integer")]].

(** A server that turns every request down as unauthorized, one that
    answers with a validation error, one that accepts every request, and
    one that cannot be reached. *)
Definition rejecting_server (c : ApiContext.RequestConfig Upload.FormData) : ApiContext.Reply :=
  ApiContext.Answered
    {| ApiContext.http_status := 401;
       ApiContext.data_detail := Some (JS.JStr "Invalid token") |}.

Definition validating_server (c : ApiContext.RequestConfig Upload.FormData) : ApiContext.Reply :=
  ApiContext.Answered
    {| ApiContext.http_status := 422; ApiContext.data_detail := Some validation_detail |}.

Definition accepting_server (c : ApiContext.RequestConfig Upload.FormData) : ApiContext.Reply :=
  ApiContext.Answered {| ApiContext.http_status := 200; ApiContext.data_detail := None |}.

Definition unreachable_server (c : ApiContext.RequestConfig Upload.FormData) : ApiContext.Reply :=
  ApiContext.Unreachable "Network Error".

(** A form on the file tab with a video selected. *)
Definition ready : Upload.State :=
  Upload.setSelectedFile (Some UploadSpec.talk_mp4) Upload.initialState.

End ClientSpec.

Module PageSpec.

Import Page.

(** How many submissions and how many settled calls a run of steps holds. *)
Definition is_press (s : Step) : bool :=
  match s with Press => true | _ => false end.

Definition is_answer (s : Step) : bool :=
  match s with Answer _ => true | _ => false end.

Definition count_presses (steps : list Step) : nat := length (List.filter is_press steps).

Definition count_answers (steps : list Step) : nat := length (List.filter is_answer steps).

(** A browser's URL check that takes every text starting with http. *)
Definition starts_with_http (u : string) : bool := JS.startsWith u "http".

(** The user picks a video, submits, and moves a slider while the request
    is in flight; and the same with the server then failing to answer. *)
Definition in_flight_session : list Step :=
  [Act (Upload.ChooseFiles (Some [UploadSpec.talk_mp4])); Press;
   Act (Upload.SlideFontSize 30)].

Definition settled_session : list Step :=
  (in_flight_session
   ++ [Answer (ApiContext.Failed (ClientSpec.unanswered_error "Network Error"))])%list.

End PageSpec.

(** * Properties *)

(** ** Facts about the JavaScript helpers *)

Module JSFacts.

Import JS.

Lemma truthy_Some (s : string) : truthy (Some s) = true <-> s <> "".
Proof.
  unfold truthy. rewrite negb_true_iff. split.
  - intros H ->. discriminate.
  - intros H. now apply String.eqb_neq.
Qed.

Lemma when_truthy_Some {A : Type} (v : option string) (e : string -> A) (a : A) :
  when_truthy v e = Some a <-> exists s, v = Some s /\ s <> "" /\ a = e s.
Proof.
  unfold when_truthy. destruct v as [s|].
  - destruct (truthy (Some s)) eqn:T.
    + apply truthy_Some in T. split.
      * intros [= <-]. eauto.
      * intros (s' & [= <-] & _ & ->). reflexivity.
    + split; [discriminate|].
      intros (s' & [= <-] & Hne & _). apply truthy_Some in Hne. congruence.
  - split; [discriminate|]. intros (s' & Hs & _). discriminate.
Qed.

(** Reading back the digits that were printed. *)
Lemma dec_prefix_string_of_uint (d : Decimal.uint) :
  dec_prefix (DecimalString.NilEmpty.string_of_uint d) = d.
Proof. induction d; simpl; congruence. Qed.

(** Printed digits start with a digit: there is no white space to skip, no
    sign and no [0x] prefix. *)
Lemma printed_digits_plain (d : Decimal.uint) :
  d <> Decimal.Nil ->
  let s := DecimalString.NilEmpty.string_of_uint d in
  skip_space s = s /\ split_sign s = (1%Z, s) /\ has_hex_prefix s = false.
Proof.
  intros Hd.
  destruct d as [|d'|d'|d'|d'|d'|d'|d'|d'|d'|d']; try congruence;
    (repeat split; try reflexivity); destruct d'; reflexivity.
Qed.

Lemma parse_magnitude_digits (d : Decimal.uint) :
  d <> Decimal.Nil ->
  parse_magnitude (DecimalString.NilEmpty.string_of_uint d) = Some (Z.of_uint d).
Proof.
  intros Hd. unfold parse_magnitude.
  destruct (printed_digits_plain d Hd) as (_ & _ & ->).
  rewrite dec_prefix_string_of_uint. destruct d; [contradiction|reflexivity..].
Qed.

Lemma parseInt_digits (d : Decimal.uint) :
  d <> Decimal.Nil ->
  parseInt (DecimalString.NilEmpty.string_of_uint d) = Num (Z.of_uint d).
Proof.
  intros Hd. unfold parseInt.
  destruct (printed_digits_plain d Hd) as (-> & -> & _).
  rewrite parse_magnitude_digits by exact Hd. f_equal. lia.
Qed.

Lemma string_of_uint_nonnil (d : Decimal.uint) :
  d <> Decimal.Nil ->
  DecimalString.NilZero.string_of_uint d = DecimalString.NilEmpty.string_of_uint d.
Proof. intros Hd. destruct d; [contradiction|reflexivity..]. Qed.

Lemma parseInt_minus (s : string) :
  parseInt (String "-" s) =
  match parse_magnitude s with Some m => Num (-1 * m) | None => NaN end.
Proof. reflexivity. Qed.

(** [parseInt] reads back what [toString] printed. *)
Lemma parseInt_toString (z : Z) : parseInt (toString (Num z)) = Num z.
Proof.
  destruct z as [|p|p]; [reflexivity| |];
    pose proof (DecimalPos.Unsigned.to_uint_nonnil p) as Hn; simpl toString;
    rewrite string_of_uint_nonnil by exact Hn.
  - rewrite parseInt_digits by exact Hn.
    unfold Z.of_uint. now rewrite DecimalPos.Unsigned.of_to.
  - rewrite parseInt_minus, parse_magnitude_digits by exact Hn.
    unfold Z.of_uint. rewrite DecimalPos.Unsigned.of_to. reflexivity.
Qed.

End JSFacts.

(** ** The video card *)

Module VideoCardFacts.

Import VideoCard.
Import VideoCardSpec.

Lemma recognised_false (s : string) :
  recognised s = false <-> s <> "completed" /\ s <> "failed" /\ s <> "processing".
Proof.
  unfold recognised. rewrite !orb_false_iff, !String.eqb_neq. tauto.
Qed.

Ltac case_status s :=
  destruct (String.eqb_spec s "completed") as [->|?];
  [|destruct (String.eqb_spec s "failed") as [->|?];
    [|destruct (String.eqb_spec s "processing") as [->|?]]].

(** C10: for every status string other than completed, failed and
    processing, the intermediate statuses of the specification and unknown
    values alike, the three status functions of the card answer the Pending
    label, the clock icon and the yellow styling; being total functions of
    the string they answer on every status, and the rendered card shows
    exactly these. *)
Theorem unrecognised_status_renders_pending
    (formatDistanceToNow : string -> string) (v : Video) :
  status v <> "completed" -> status v <> "failed" -> status v <> "processing" ->
  getStatusText (status v) = "Pending" /\
  getStatusIcon (status v) = Clock "w-5 h-5 text-yellow-600" /\
  getStatusColor (status v) = "bg-yellow-100 text-yellow-800" /\
  badge_text (render formatDistanceToNow v) = "Pending" /\
  status_icon (render formatDistanceToNow v) = Clock "w-5 h-5 text-yellow-600" /\
  badge_class (render formatDistanceToNow v) =
    "px-2 py-1 text-xs font-medium rounded-full bg-yellow-100 text-yellow-800".
Proof.
  intros Hc Hf Hp. simpl.
  unfold getStatusText, getStatusIcon, getStatusColor.
  apply String.eqb_neq in Hc, Hf, Hp. rewrite Hc, Hf, Hp.
  repeat split; reflexivity.
Qed.

(** The intermediate status [transcribing] and an unknown status both fall
    back to Pending. *)
Lemma unrecognised_status_renders_pending_witness :
  getStatusText "transcribing" = "Pending" /\
  getStatusIcon "transcribing" = Clock "w-5 h-5 text-yellow-600" /\
  getStatusColor "transcribing" = "bg-yellow-100 text-yellow-800" /\
  getStatusText "no such status" = "Pending".
Proof.
  pose (v := {| id := "1"; filename := "a.mp4"; status := "transcribing";
                created_at := ""; completed_at := None;
                captioned_video_url := None; error := None |}).
  pose (w := {| id := "2"; filename := "b.mp4"; status := "no such status";
                created_at := ""; completed_at := None;
                captioned_video_url := None; error := None |}).
  destruct (unrecognised_status_renders_pending (fun s => s) v) as (Ht & Hi & Hc & _);
    [discriminate..|].
  destruct (unrecognised_status_renders_pending (fun s => s) w) as (Hu & _);
    [discriminate..|].
  exact (conj Ht (conj Hi (conj Hc Hu))).
Defined.

(** *** The badge *)

(** X9: icon, label and colour of the status badge always belong together:
    for every status string the three functions pick the same one of four
    looks (green check Completed, red cross Failed, blue spinner
    Processing, yellow clock Pending), so the badge never pairs the icon
    of one status with the label or colour of another. *)
Theorem status_badge_is_consistent (s : string) :
  (s = "completed" /\
   getStatusIcon s = CheckCircle "w-5 h-5 text-green-600" /\
   getStatusText s = "Completed" /\ getStatusColor s = "bg-green-100 text-green-800") \/
  (s = "failed" /\
   getStatusIcon s = XCircle "w-5 h-5 text-red-600" /\
   getStatusText s = "Failed" /\ getStatusColor s = "bg-red-100 text-red-800") \/
  (s = "processing" /\
   getStatusIcon s = Loader "w-5 h-5 text-blue-600 animate-spin" /\
   getStatusText s = "Processing" /\ getStatusColor s = "bg-blue-100 text-blue-800") \/
  (recognised s = false /\
   getStatusIcon s = Clock "w-5 h-5 text-yellow-600" /\
   getStatusText s = "Pending" /\ getStatusColor s = "bg-yellow-100 text-yellow-800").
Proof.
  unfold getStatusIcon, getStatusText, getStatusColor.
  case_status s.
  - left. repeat split.
  - right; left. repeat split.
  - right; right; left. repeat split.
  - right; right; right. rewrite recognised_false. repeat split; assumption.
Qed.

(** *** The identifier line *)

Lemma substring_prefix (n : nat) :
  forall s, n <= String.length s ->
    String.length (String.substring 0 n s) = n /\
    String.prefix (String.substring 0 n s) s = true.
Proof.
  induction n as [|n IH]; intros s Hn.
  - destruct s; split; reflexivity.
  - destruct s as [|c r]; simpl in Hn; [lia|].
    destruct (IH r) as [Hl Hp]; [lia|]. simpl. split.
    + now rewrite Hl.
    + destruct (ascii_dec c c) as [_|Hc]; [exact Hp|congruence].
Qed.

(** X10: the identifier line of a card shows ID, then the first eight
    characters of the video id, or the whole id when it is shorter, then
    three dots, which are appended for a short or empty id as well. *)
Theorem id_line_shows_first_eight (formatDistanceToNow : string -> string) (v : Video) :
  exists shown,
    id_line (render formatDistanceToNow v) = "ID: " ++ shown ++ "..." /\
    String.prefix shown (id v) = true /\
    String.length shown = Nat.min 8 (String.length (id v)) /\
    (String.length (id v) <= 8 -> shown = id v).
Proof.
  exists (JS.slice0 8 (id v)). split; [reflexivity|].
  destruct (substring_prefix (Nat.min 8 (String.length (id v))) (id v)) as [Hl Hp]; [lia|].
  split; [exact Hp|]. split; [exact Hl|].
  intros Hshort. unfold JS.slice0. rewrite Nat.min_r by exact Hshort.
  clear. induction (id v) as [|c r IH]; [reflexivity|]. simpl. now rewrite IH.
Qed.

End VideoCardFacts.

(** ** The shared axios instance *)

Module ApiContextFacts.

Import ApiContext.
Import ApiContextSpec.






End ApiContextFacts.

(** ** The upload form *)

Module UploadFacts.

Import Upload.
Import UploadSpec.

Lemma parseInt_range_value (lo hi pos : Z) :
  (lo <= hi)%Z ->
  exists v, JS.parseInt (range_value lo hi pos) = JS.Num v /\ (lo <= v <= hi)%Z.
Proof.
  intros Hle. exists (Z.max lo (Z.min hi pos)). split.
  - unfold range_value. apply JSFacts.parseInt_toString.
  - lia.
Qed.

Lemma initialStyle_in_range : style_in_range initialStyle.
Proof. exists 24%Z, 2%Z, 10%Z. simpl. repeat split; lia. Qed.

Lemma handleFileSelect_style (f : File) (st : State) :
  captionStyle (fst (handleFileSelect f st)) = captionStyle st.
Proof. unfold handleFileSelect. destruct (JS.startsWith _ _); reflexivity. Qed.

(** Every handler keeps the style within the sliders' bounds. *)
Lemma handle_style_in_range (e : Event) (st : State) :
  style_in_range (captionStyle st) -> style_in_range (captionStyle (fst (handle e st))).
Proof.
  intros (fs & sw & pd & Hfs & Hsw & Hpd & Bfs & Bsw & Bpd).
  destruct e as [m| | |files|files|v|v|pos|pos|v|v|pos|outcome|]; simpl;
    try (exists fs, sw, pd; repeat split; assumption || lia).
  - (* drop *)
    unfold handleFileDrop. destruct files as [|f files]; simpl.
    + exists fs, sw, pd. repeat split; assumption || lia.
    + rewrite handleFileSelect_style. simpl. exists fs, sw, pd. repeat split; assumption || lia.
  - (* file input *)
    unfold handleFileChange. destruct files as [[|f files]|]; simpl;
      try rewrite handleFileSelect_style; exists fs, sw, pd; repeat split; assumption || lia.
  - (* font size slider *)
    destruct (parseInt_range_value 12 72 pos) as (v & Hv & Bv); [lia|].
    exists v, sw, pd. simpl. repeat split; assumption || lia.
  - (* padding slider *)
    destruct (parseInt_range_value 0 50 pos) as (v & Hv & Bv); [lia|].
    exists fs, sw, v. simpl. repeat split; assumption || lia.
  - (* stroke width slider *)
    destruct (parseInt_range_value 0 10 pos) as (v & Hv & Bv); [lia|].
    exists fs, v, pd. simpl. repeat split; assumption || lia.
  - (* submit *)
    unfold handleSubmit. destruct (_ && _)%bool; simpl;
      exists fs, sw, pd; repeat split; assumption || lia.
Qed.

(** The style entries follow the source entry, whose key is none of theirs. *)
Lemma entry_style (key : string) (st : State) :
  key <> "video_file" -> key <> "video_url" ->
  entry key (source_entries st ++ style_entries (captionStyle st))%list =
  entry key (style_entries (captionStyle st)).
Proof.
  intros Hf Hu. apply String.eqb_neq in Hf, Hu.
  assert (Hf' : String.eqb "video_file" key = false) by (now rewrite String.eqb_sym).
  assert (Hu' : String.eqb "video_url" key = false) by (now rewrite String.eqb_sym).
  unfold source_entries.
  destruct (uploadMethod st), (selectedFile st); cbn [app entry];
    try destruct (JS.truthy _); cbn [app entry]; rewrite ?Hf', ?Hu'; reflexivity.
Qed.

(** A request posted from a state within bounds carries a style within
    bounds. *)
Lemma handle_post_in_range (e : Event) (st : State) (p : string) (body : FormData)
    (hs : gmap string string) :
  style_in_range (captionStyle st) ->
  In (Post p body hs) (snd (handle e st)) -> body_in_range body.
Proof.
  intros (fs & sw & pd & Hfs & Hsw & Hpd & Bfs & Bsw & Bpd) Hin.
  assert (Hsel : forall f s, ~ In (Post p body hs) (snd (handleFileSelect f s))).
  { intros f s. unfold handleFileSelect. destruct (JS.startsWith _ _); simpl;
      [tauto|intros [H|[]]; discriminate H]. }
  destruct e as [m| | |files|files|v|v|pos|pos|v|v|pos|outcome|]; simpl in Hin;
    try contradiction.
  - unfold handleFileDrop in Hin. destruct files; [contradiction|]. now apply Hsel in Hin.
  - unfold handleFileChange in Hin. destruct files as [[|f files]|]; try contradiction.
    now apply Hsel in Hin.
  - unfold handleSubmit in Hin. destruct (_ && _)%bool; simpl in Hin.
    + destruct Hin as [H|[]]. discriminate H.
    + destruct Hin as [H|[H|[]]]; [|destruct outcome; discriminate H].
      injection H as _ <- _.
      exists fs, sw, pd. rewrite !entry_style by discriminate.
      simpl. rewrite Hfs, Hsw, Hpd. repeat split; lia.
  - destruct Hin as [H|[]]. discriminate H.
Qed.

Lemma run_cons (e : Event) (rest : list Event) (st : State) :
  run (e :: rest) st =
  (fst (run rest (fst (handle e st))),
   (snd (handle e st) ++ snd (run rest (fst (handle e st))))%list).
Proof.
  simpl. destruct (handle e st) as [st1 fx1]. simpl.
  destruct (run rest st1) as [st2 fx2]. reflexivity.
Qed.

Lemma run_posts_in_range (events : list Event) :
  forall st p body hs,
    style_in_range (captionStyle st) ->
    In (Post p body hs) (snd (run events st)) -> body_in_range body.
Proof.
  induction events as [|e rest IH]; intros st p body hs Hst Hin.
  - simpl in Hin. contradiction.
  - rewrite run_cons in Hin. simpl in Hin. apply in_app_or in Hin as [Hin|Hin].
    + eapply handle_post_in_range; eassumption.
    + eapply IH; [|eassumption]. now apply handle_style_in_range.
Qed.

(** C6: whatever the user does on the upload page, every CaptionStyle the
    form submits to the core has a font size between 12 and 72, a stroke
    width between 0 and 10 and a padding between 0 and 50, all integers
    written in decimal: the font size is positive, stroke width and padding
    are not negative. *)
Theorem submitted_style_within_slider_bounds
    (events : list Event) (path : string) (body : FormData) (hs : gmap string string) :
  In (Post path body hs) (snd (run events initialState)) ->
  exists fs sw pd : Z,
    entry "font_size" body = Some (Text (JS.toString (JS.Num fs))) /\
    entry "stroke_width" body = Some (Text (JS.toString (JS.Num sw))) /\
    entry "padding" body = Some (Text (JS.toString (JS.Num pd))) /\
    (12 <= fs <= 72)%Z /\ (0 <= sw <= 10)%Z /\ (0 <= pd <= 50)%Z /\
    (0 < fs)%Z.
Proof.
  intros Hin.
  destruct (run_posts_in_range events initialState path body hs initialStyle_in_range Hin)
    as (fs & sw & pd & H1 & H2 & H3 & B1 & B2 & B3).
  exists fs, sw, pd. repeat split; assumption || lia.
Qed.

Lemma submitted_style_within_slider_bounds_witness :
  In (Post "/api/caption" session_body {[ "Content-Type" := "multipart/form-data" ]})
     (snd (run session initialState)) /\
  exists fs sw pd : Z,
    entry "font_size" session_body = Some (Text (JS.toString (JS.Num fs))) /\
    entry "stroke_width" session_body = Some (Text (JS.toString (JS.Num sw))) /\
    entry "padding" session_body = Some (Text (JS.toString (JS.Num pd))) /\
    (12 <= fs <= 72)%Z /\ (0 <= sw <= 10)%Z /\ (0 <= pd <= 50)%Z /\
    (0 < fs)%Z.
Proof.
  assert (H : In (Post "/api/caption" session_body
                    {[ "Content-Type" := "multipart/form-data" ]})
                 (snd (run session initialState))).
  { left. reflexivity. }
  split; [exact H|].
  exact (submitted_style_within_slider_bounds session "/api/caption" session_body _ H).
Defined.

(** *** The selected source *)

Lemma handleFileSelect_selection (f : File) (st : State) :
  selection_is_video st -> selection_is_video (fst (handleFileSelect f st)).
Proof.
  intros Hst. unfold handleFileSelect.
  destruct (JS.startsWith (type f) "video/") eqn:E; simpl; [|exact Hst].
  intros g [= <-]. exact E.
Qed.

Lemma handle_selection (e : Event) (st : State) :
  selection_is_video st -> selection_is_video (fst (handle e st)).
Proof.
  intros Hst.
  destruct e as [m| | |files|files|v|v|pos|pos|v|v|pos|outcome|]; simpl; try exact Hst.
  - unfold handleFileDrop. destruct files as [|f files]; simpl; [exact Hst|].
    apply handleFileSelect_selection. exact Hst.
  - unfold handleFileChange. destruct files as [[|f files]|]; simpl; try exact Hst.
    apply handleFileSelect_selection. exact Hst.
  - unfold handleSubmit. destruct (_ && _)%bool; exact Hst.
Qed.

Lemma run_selection (events : list Event) :
  forall st, selection_is_video st -> selection_is_video (fst (run events st)).
Proof.
  induction events as [|e rest IH]; intros st Hst; [exact Hst|].
  rewrite run_cons. simpl. apply IH, handle_selection, Hst.
Qed.

Lemma initial_selection : selection_is_video initialState.
Proof. intros f H. discriminate H. Qed.

(** The file entry of a posted form is the selected file. *)
Lemma handle_post_file (e : Event) (st : State) (p : string) (body : FormData)
    (hs : gmap string string) :
  selection_is_video st ->
  In (Post p body hs) (snd (handle e st)) -> body_file_is_video body.
Proof.
  intros Hst Hin.
  assert (Hsel : forall f s, ~ In (Post p body hs) (snd (handleFileSelect f s))).
  { intros f s. unfold handleFileSelect. destruct (JS.startsWith _ _); simpl;
      [tauto|intros [H|[]]; discriminate H]. }
  destruct e as [m| | |files|files|v|v|pos|pos|v|v|pos|outcome|]; simpl in Hin;
    try contradiction.
  - unfold handleFileDrop in Hin. destruct files; [contradiction|]. now apply Hsel in Hin.
  - unfold handleFileChange in Hin. destruct files as [[|f files]|]; try contradiction.
    now apply Hsel in Hin.
  - unfold handleSubmit in Hin. destruct (_ && _)%bool; simpl in Hin.
    + destruct Hin as [H|[]]. discriminate H.
    + destruct Hin as [H|[H|[]]]; [|destruct outcome; discriminate H].
      injection H as _ <- _.
      intros f Hf. apply Hst. revert Hf. unfold source_entries.
      destruct (uploadMethod st), (selectedFile st) as [g|]; cbn [app entry];
        try destruct (JS.truthy _); cbn [app entry]; simpl; congruence.
  - destruct Hin as [H|[]]. discriminate H.
Qed.

Lemma run_post_file (events : list Event) :
  forall st p body hs,
    selection_is_video st ->
    In (Post p body hs) (snd (run events st)) -> body_file_is_video body.
Proof.
  induction events as [|e rest IH]; intros st p body hs Hst Hin.
  - simpl in Hin. contradiction.
  - rewrite run_cons in Hin. simpl in Hin. apply in_app_or in Hin as [Hin|Hin].
    + eapply handle_post_file; eassumption.
    + eapply IH; [|eassumption]. now apply handle_selection.
Qed.

(** X14: at the client boundary a chosen file becomes the selected source
    only if it is a video file, and this is the only test: a file whose
    type does not start with video/ is turned down with an alert and the
    form stays as it was, a file whose type does is selected whatever its
    container; so in every session from the initial form the selected
    file, and the video_file entry of every posted form, has a type that
    starts with video/. *)
Theorem selected_source_is_a_video
    (events : list Event) (st : State) (f g : File)
    (path : string) (body : FormData) (hs : gmap string string) :
  (JS.startsWith (type f) "video/" = false ->
     handleFileSelect f st = (st, [Alert "Please select a valid video file"])) /\
  (JS.startsWith (type f) "video/" = true ->
     handleFileSelect f st = (setSelectedFile (Some f) st, [])) /\
  (selectedFile (fst (run events initialState)) = Some g ->
     JS.startsWith (type g) "video/" = true) /\
  (In (Post path body hs) (snd (run events initialState)) ->
     entry "video_file" body = Some (Blob g) ->
     JS.startsWith (type g) "video/" = true).
Proof.
  split; [|split; [|split]].
  - intros H. unfold handleFileSelect. rewrite H. reflexivity.
  - intros H. unfold handleFileSelect. rewrite H. reflexivity.
  - apply (run_selection events initialState initial_selection).
  - intros Hin. eapply run_post_file; [|exact Hin]. apply initial_selection.
Qed.

(** A PDF is turned down; a WebM video is selected and posted. *)
Lemma selected_source_is_a_video_witness :
  handleFileSelect notes_pdf initialState
  = (initialState, [Alert "Please select a valid video file"]) /\
  handleFileSelect clip_webm initialState
  = (setSelectedFile (Some clip_webm) initialState, []) /\
  In (Post "/api/caption"
        (("video_file", Blob clip_webm) :: style_entries initialStyle)
        {[ "Content-Type" := "multipart/form-data" ]})
     (snd (run [ChooseFiles (Some [clip_webm]); SubmitForm PostResolved] initialState)).
Proof.
  destruct (selected_source_is_a_video [] initialState notes_pdf notes_pdf "" [] ∅)
    as (Hpdf & _).
  destruct (selected_source_is_a_video [] initialState clip_webm clip_webm "" [] ∅)
    as (_ & Hwebm & _).
  split; [apply Hpdf; reflexivity|]. split; [apply Hwebm; reflexivity|].
  left. reflexivity.
Defined.

(** *** What [handleSubmit] posts *)

(** With neither a file nor a URL, [handleSubmit] only alerts. *)
Lemma submit_needs_a_source (outcome : PostOutcome) (st : State) :
  selectedFile st = None -> videoUrl st = "" ->
  handleSubmit outcome st
  = (st, [Alert "Please select a video file or enter a video URL"]).
Proof.
  intros Hf Hu. unfold handleSubmit. rewrite Hf, Hu. reflexivity.
Qed.




(** On the URL tab with no URL typed, a file selected earlier passes the
    guard of [handleSubmit], and the form is posted with the style entries
    only. *)
Lemma stale_file_posts_no_source (outcome : PostOutcome) (st : State) (f : File) :
  uploadMethod st = url -> videoUrl st = "" -> selectedFile st = Some f ->
  exists after,
    snd (handleSubmit outcome st)
    = [Post "/api/caption" (style_entries (captionStyle st))
         {[ "Content-Type" := "multipart/form-data" ]}; after] /\
    entry "video_file" (style_entries (captionStyle st)) = None /\
    entry "video_url" (style_entries (captionStyle st)) = None.
Proof.
  intros Hm Hu Hf. unfold handleSubmit, source_entries. rewrite Hm, Hu, Hf. simpl.
  eexists. repeat split.
Qed.

(** X3: a submission without any video is within reach of the page: for
    every video file, choosing it on the file tab, switching to the URL tab
    and pressing the enabled submit button with the URL left empty is a
    session the page allows, and the one request it makes carries the six
    style entries only, with neither a video_file nor a video_url entry:
    the source entry follows the active tab, while the guard and the
    button look at both inputs. *)
Theorem sourceless_submission_is_reachable
    (f : File) (others : list File) (outcome : PostOutcome) :
  JS.startsWith (type f) "video/" = true ->
  possible [ChooseFiles (Some (f :: others)); ClickUploadMethod url; SubmitForm outcome]
           initialState = true /\
  exists after,
    snd (run [ChooseFiles (Some (f :: others)); ClickUploadMethod url; SubmitForm outcome]
             initialState)
    = [Post "/api/caption" (style_entries initialStyle)
         {[ "Content-Type" := "multipart/form-data" ]}; after] /\
    entry "video_file" (style_entries initialStyle) = None /\
    entry "video_url" (style_entries initialStyle) = None.
Proof.
  intros Hv.
  assert (Hsel : handleFileSelect f initialState
                 = (setSelectedFile (Some f) initialState, [])).
  { unfold handleFileSelect. rewrite Hv. reflexivity. }
  split.
  - cbn [possible available handle handleFileChange]. rewrite Hsel. reflexivity.
  - rewrite !run_cons. cbn [run handle handleFileChange fst snd]. rewrite Hsel.
    cbn [fst snd app].
    destruct (stale_file_posts_no_source outcome
                (setUploadMethod url (setSelectedFile (Some f) initialState)) f)
      as (after & H & Hf & Hu); [reflexivity..|].
    exists after. rewrite app_nil_r. split; [exact H|]. split; [exact Hf|exact Hu].
Qed.

Lemma sourceless_submission_is_reachable_witness :
  possible [ChooseFiles (Some [talk_mp4]); ClickUploadMethod url; SubmitForm PostResolved]
           initialState = true /\
  exists after,
    snd (run [ChooseFiles (Some [talk_mp4]); ClickUploadMethod url; SubmitForm PostResolved]
             initialState)
    = [Post "/api/caption" (style_entries initialStyle)
         {[ "Content-Type" := "multipart/form-data" ]}; after].
Proof.
  destruct (sourceless_submission_is_reachable talk_mp4 [] PostResolved eq_refl)
    as (Hp & after & H & _).
  split; [exact Hp|]. exists after. exact H.
Defined.

(** *** The selection *)

Lemma handleFileSelect_keeps_selection (f : File) (st : State) :
  is_Some (selectedFile st) -> is_Some (selectedFile (fst (handleFileSelect f st))).
Proof.
  intros H. unfold handleFileSelect. destruct (JS.startsWith _ _); simpl; eauto.
Qed.

Lemma handle_keeps_selection (e : Event) (st : State) :
  is_Some (selectedFile st) -> is_Some (selectedFile (fst (handle e st))).
Proof.
  intros H.
  destruct e as [m| | |files|files|v|v|pos|pos|v|v|pos|outcome|]; simpl; try exact H.
  - unfold handleFileDrop. destruct files as [|f files]; simpl; [exact H|].
    apply handleFileSelect_keeps_selection. exact H.
  - unfold handleFileChange. destruct files as [[|f files]|]; simpl; try exact H.
    apply handleFileSelect_keeps_selection. exact H.
  - unfold handleSubmit. destruct (_ && _)%bool; exact H.
Qed.

(** X5: a selected file can be replaced but never cleared: once a file is
    selected, it or a later video stays selected through every event of
    the page, a failed or successful submission and a change of tab
    included, so the guard of [handleSubmit] never fails again. *)
Theorem selection_is_never_cleared (events : list Event) (st : State) :
  is_Some (selectedFile st) ->
  is_Some (selectedFile (fst (run events st))) /\
  lacksSource (fst (run events st)) = false.
Proof.
  intros H.
  assert (Hs : is_Some (selectedFile (fst (run events st)))).
  { revert st H. induction events as [|e rest IH]; intros st H; [exact H|].
    rewrite run_cons. simpl. apply IH, handle_keeps_selection, H. }
  split; [exact Hs|]. unfold lacksSource.
  rewrite (bool_decide_eq_true_2 _ Hs). reflexivity.
Qed.

Lemma selection_is_never_cleared_witness :
  is_Some (selectedFile
             (fst (run [ClickUploadMethod url; DropFiles [notes_pdf]; SubmitForm (PostRejected None)]
                       url_tab_with_stale_file))).
Proof.
  apply (selection_is_never_cleared _ url_tab_with_stale_file). simpl. eauto.
Defined.

(** X6: of the files dropped or chosen at once only the first counts: when
    it is a video it becomes the selection, and when it is not the
    selection stays as it was and the alert is raised, whatever files
    follow it; an empty drop and an empty or missing file list change
    nothing but the drag highlight. *)
Theorem only_first_file_counts (f : File) (others : list File) (st : State) :
  (JS.startsWith (type f) "video/" = true ->
     selectedFile (fst (handleFileDrop (f :: others) st)) = Some f /\
     selectedFile (fst (handleFileChange (Some (f :: others)) st)) = Some f /\
     snd (handleFileDrop (f :: others) st) = []) /\
  (JS.startsWith (type f) "video/" = false ->
     selectedFile (fst (handleFileDrop (f :: others) st)) = selectedFile st /\
     fst (handleFileChange (Some (f :: others)) st) = st /\
     snd (handleFileDrop (f :: others) st) = [Alert "Please select a valid video file"]) /\
  dragOver (fst (handleFileDrop (f :: others) st)) = false /\
  handleFileDrop [] st = (setDragOver false st, []) /\
  handleFileChange (Some []) st = (st, []) /\
  handleFileChange None st = (st, []).
Proof.
  unfold handleFileDrop, handleFileChange, handleFileSelect.
  destruct (JS.startsWith (type f) "video/"); simpl; repeat split; intros; congruence.
Qed.

(** A PDF dropped together with a video: the video is not selected. *)
Lemma only_first_file_counts_witness :
  selectedFile (fst (handleFileDrop [notes_pdf; clip_mov] initialState)) = None /\
  selectedFile (fst (handleFileDrop [clip_mov; notes_pdf] initialState)) = Some clip_mov.
Proof.
  destruct (only_first_file_counts notes_pdf [clip_mov] initialState) as (_ & Hpdf & _).
  destruct (only_first_file_counts clip_mov [notes_pdf] initialState) as (Hmov & _).
  split.
  - apply Hpdf. reflexivity.
  - apply Hmov. reflexivity.
Defined.

(** *** What the controls put into the form *)

(** The text a slider reports survives [parseInt] and [toString]. *)
Lemma range_value_round_trip (lo hi pos : Z) :
  JS.toString (JS.parseInt (range_value lo hi pos)) = range_value lo hi pos.
Proof. unfold range_value. now rewrite JSFacts.parseInt_toString. Qed.

Lemma submit_posts (outcome : PostOutcome) (st : State) :
  lacksSource st = false ->
  exists after,
    snd (handleSubmit outcome st)
    = [Post "/api/caption" (source_entries st ++ style_entries (captionStyle st))%list
         {[ "Content-Type" := "multipart/form-data" ]}; after].
Proof.
  intros H. unfold handleSubmit. fold (lacksSource st). rewrite H. simpl. eauto.
Qed.

(** X7: the value a slider reports reaches the core unchanged: after the
    font size, padding or stroke width slider is moved, the next submitted
    form carries for that key exactly the text the slider reported (the
    position clamped to the slider's bounds), the number stored in between
    by [parseInt] printing back to the same text. *)
Theorem slider_value_is_submitted (pos : Z) (outcome : PostOutcome) (st : State) :
  lacksSource st = false ->
  exists b1 b2 b3 a1 a2 a3,
    snd (run [SlideFontSize pos; SubmitForm outcome] st)
      = [Post "/api/caption" b1 {[ "Content-Type" := "multipart/form-data" ]}; a1] /\
    entry "font_size" b1 = Some (Text (range_value 12 72 pos)) /\
    snd (run [SlidePadding pos; SubmitForm outcome] st)
      = [Post "/api/caption" b2 {[ "Content-Type" := "multipart/form-data" ]}; a2] /\
    entry "padding" b2 = Some (Text (range_value 0 50 pos)) /\
    snd (run [SlideStrokeWidth pos; SubmitForm outcome] st)
      = [Post "/api/caption" b3 {[ "Content-Type" := "multipart/form-data" ]}; a3] /\
    entry "stroke_width" b3 = Some (Text (range_value 0 10 pos)).
Proof.
  intros H.
  destruct (submit_posts outcome (onFontSizeChange (range_value 12 72 pos) st) H) as (a1 & H1).
  destruct (submit_posts outcome (onPaddingChange (range_value 0 50 pos) st) H) as (a2 & H2).
  destruct (submit_posts outcome (onStrokeWidthChange (range_value 0 10 pos) st) H) as (a3 & H3).
  do 3 eexists. exists a1, a2, a3.
  rewrite !run_cons. cbn [run handle fst snd app]. rewrite !app_nil_r.
  rewrite H1, H2, H3.
  repeat split; rewrite entry_style by discriminate;
    cbn -[JS.parseInt JS.toString range_value];
    now rewrite range_value_round_trip.
Qed.

Lemma slider_value_is_submitted_witness :
  exists b a,
    snd (run [SlideFontSize 500; SubmitForm PostResolved] url_tab_with_stale_file)
      = [Post "/api/caption" b {[ "Content-Type" := "multipart/form-data" ]}; a] /\
    entry "font_size" b = Some (Text (range_value 12 72 500)).
Proof.
  destruct (slider_value_is_submitted 500 PostResolved url_tab_with_stale_file eq_refl)
    as (b1 & _ & _ & a1 & _ & _ & H & He & _).
  exists b1, a1. exact (conj H He).
Defined.

(** X8: the form checks neither colour nor font: whatever text is typed into
    the font colour and stroke colour fields, or given as font type, is
    submitted verbatim under font_color, stroke_color and font_type, be it
    empty or no hex colour at all. *)
Theorem typed_style_text_is_submitted_verbatim
    (font color stroke : string) (outcome : PostOutcome) (st : State) :
  lacksSource st = false ->
  exists body after,
    snd (run [SelectFontType font; TypeFontColor color; TypeStrokeColor stroke;
              SubmitForm outcome] st)
      = [Post "/api/caption" body {[ "Content-Type" := "multipart/form-data" ]}; after] /\
    entry "font_type" body = Some (Text font) /\
    entry "font_color" body = Some (Text color) /\
    entry "stroke_color" body = Some (Text stroke).
Proof.
  intros H.
  destruct (submit_posts outcome
              (onStrokeColorChange stroke (onFontColorChange color (onFontTypeChange font st))) H)
    as (after & Hp).
  eexists. exists after.
  rewrite !run_cons. cbn [run handle fst snd app]. rewrite Hp.
  repeat split; rewrite entry_style by discriminate; reflexivity.
Qed.

Lemma typed_style_text_is_submitted_verbatim_witness :
  exists body after,
    snd (run [SelectFontType "Arial"; TypeFontColor "not a colour"; TypeStrokeColor "";
              SubmitForm PostResolved] url_tab_with_stale_file)
      = [Post "/api/caption" body {[ "Content-Type" := "multipart/form-data" ]}; after] /\
    entry "font_color" body = Some (Text "not a colour") /\
    entry "stroke_color" body = Some (Text "").
Proof.
  destruct (typed_style_text_is_submitted_verbatim "Arial" "not a colour" ""
              PostResolved url_tab_with_stale_file eq_refl)
    as (body & after & H & _ & Hc & Hs).
  exists body, after. exact (conj H (conj Hc Hs)).
Defined.

End UploadFacts.

(** ** The upload form and the shared axios instance together *)

Module ClientFacts.

Import Client.
Import ClientSpec.

(** A submission that passes the guard: the call, then what follows its
    settling. *)
Lemma submit_called
    (VITE_API_URL : option string) (getIdToken : JS.Promise (option string))
    (server : ApiContext.RequestConfig Upload.FormData -> ApiContext.Reply)
    (st : Upload.State) :
  Upload.lacksSource st = false ->
  submit VITE_API_URL getIdToken server st
  = (after_submit st,
     caption_post st
     :: snd (fst (after_await
                    (ApiContext.settled (caption_exchange VITE_API_URL getIdToken server st))
                    (Upload.setIsUploading true st))),
     Some (caption_exchange VITE_API_URL getIdToken server st)) /\
  submit_console VITE_API_URL getIdToken server st
  = (map Logged (ApiContext.console (caption_exchange VITE_API_URL getIdToken server st))
     ++ snd (after_await
               (ApiContext.settled (caption_exchange VITE_API_URL getIdToken server st))
               (Upload.setIsUploading true st)))%list.
Proof.
  intros H. unfold submit, submit_console, before_await. rewrite H.
  destruct (ApiContext.settled _); split; reflexivity.
Qed.

(** X12: when the ID token cannot be obtained ([getIdToken] rejects), a
    submission calls [api.post] but no request leaves the client; the
    response interceptor logs nothing (the error has no response), the
    catch block of [handleSubmit] logs Upload error: with that error, the
    user gets the generic alert Upload failed. Please try again., is not
    taken to the dashboard, and the form keeps its contents and is no
    longer uploading. *)
Theorem token_failure_reaches_no_server
    (VITE_API_URL : option string) (reason : string)
    (server : ApiContext.RequestConfig Upload.FormData -> ApiContext.Reply)
    (st : Upload.State) :
  Upload.lacksSource st = false ->
  exists x,
    submit VITE_API_URL (JS.Rejected reason) server st
    = (after_submit st,
       [caption_post st; Upload.Alert "Upload failed. Please try again."],
       Some x) /\
    ApiContext.dispatched x = [] /\
    ApiContext.console x = [] /\
    submit_console VITE_API_URL (JS.Rejected reason) server st
    = [LoggedError "Upload error:" (unanswered_error reason)].
Proof.
  intros H.
  destruct (submit_called VITE_API_URL (JS.Rejected reason) server st H) as [Hs Hc].
  exists (caption_exchange VITE_API_URL (JS.Rejected reason) server st).
  rewrite Hs, Hc. repeat split.
Qed.

Lemma token_failure_reaches_no_server_witness :
  exists x,
    submit None (JS.Rejected "auth/network-request-failed") accepting_server ready
    = (after_submit ready,
       [caption_post ready; Upload.Alert "Upload failed. Please try again."],
       Some x) /\
    ApiContext.dispatched x = [] /\
    ApiContext.console x = [] /\
    submit_console None (JS.Rejected "auth/network-request-failed") accepting_server ready
    = [LoggedError "Upload error:" (unanswered_error "auth/network-request-failed")].
Proof.
  exact (token_failure_reaches_no_server None "auth/network-request-failed"
           accepting_server ready eq_refl).
Defined.

(** X13: what the user sees follows the server's answer. A 2xx answer takes
    the user to the dashboard with the success message, raises no alert
    and logs nothing. Any other answer raises one alert and is logged by
    the catch block of [handleSubmit] as Upload error: with the error that
    carries the answer; a 401 is logged before that, by the response
    interceptor, as Unauthorized access. The alert shows the answer's
    detail converted to text when the detail is truthy (a non-empty
    string; an array or object, such as the list of a validation error,
    which shows as its elements' texts and not as a message) and the
    generic text otherwise. In both cases exactly one request was
    dispatched, and the form keeps its contents and is no longer
    uploading. *)
Theorem server_answer_is_reported
    (VITE_API_URL : option string) (token : option string) (r : ApiContext.Response)
    (server : ApiContext.RequestConfig Upload.FormData -> ApiContext.Reply)
    (st : Upload.State) :
  Upload.lacksSource st = false ->
  (forall c, server c = ApiContext.Answered r) ->
  exists x sent,
    snd (submit VITE_API_URL (JS.Resolved token) server st) = Some x /\
    ApiContext.dispatched x = [sent] /\
    fst (fst (submit VITE_API_URL (JS.Resolved token) server st)) = after_submit st /\
    if ((200 <=? ApiContext.http_status r) && (ApiContext.http_status r <? 300))%Z
    then
      snd (fst (submit VITE_API_URL (JS.Resolved token) server st))
      = [caption_post st;
         Upload.Navigate "/"
           (Some "Video uploaded successfully! Processing will begin shortly.")] /\
      submit_console VITE_API_URL (JS.Resolved token) server st = []
    else
      snd (fst (submit VITE_API_URL (JS.Resolved token) server st))
      = [caption_post st;
         Upload.Alert
           (match ApiContext.data_detail r with
            | Some d => if JS.json_truthy d then JS.json_toString d
                        else "Upload failed. Please try again."
            | None => "Upload failed. Please try again."
            end)] /\
      submit_console VITE_API_URL (JS.Resolved token) server st
      = ((if (ApiContext.http_status r =? 401)%Z then [Logged "Unauthorized access"] else [])
         ++ [LoggedError "Upload error:" (answered_error r)])%list.
Proof.
  intros H Hs.
  destruct (submit_called VITE_API_URL (JS.Resolved token) server st H) as [Hsub Hcon].
  rewrite Hsub, Hcon. cbn [fst snd].
  unfold caption_exchange, ApiContext.post, ApiContext.requestInterceptor, ApiContext.exchange.
  destruct token as [t|]; [destruct (JS.truthy (Some t))|]; rewrite Hs;
    destruct ((200 <=? ApiContext.http_status r) && (ApiContext.http_status r <? 300))%Z;
    cbn [ApiContext.responseRejected ApiContext.settled ApiContext.dispatched
         ApiContext.console ApiContext.response ApiContext.responseFulfilled
         after_await fst snd map app];
    (eexists; eexists; split; [reflexivity|]; split; [reflexivity|]; split; [reflexivity|]);
    (split; [reflexivity|]);
    try reflexivity;
    destruct (ApiContext.http_status r =? 401)%Z; reflexivity.
Qed.

(** A stale token is turned down with a 401 and a message; a validation
    error carries a list, which the alert shows as [[object Object]]. *)
Lemma server_answer_is_reported_witness :
  (snd (fst (submit None (JS.Resolved (Some "stale")) rejecting_server ready))
   = [caption_post ready; Upload.Alert "Invalid token"] /\
   submit_console None (JS.Resolved (Some "stale")) rejecting_server ready
   = [Logged "Unauthorized access";
      LoggedError "Upload error:"
        (answered_error (ApiContext.mkResponse 401 (Some (JS.JStr "Invalid token"))))]) /\
  (snd (fst (submit None (JS.Resolved (Some "fresh")) validating_server ready))
   = [caption_post ready; Upload.Alert "[object Object]"] /\
   submit_console None (JS.Resolved (Some "fresh")) validating_server ready
   = [LoggedError "Upload error:"
        (answered_error (ApiContext.mkResponse 422 (Some validation_detail)))]).
Proof.
  destruct (server_answer_is_reported None (Some "stale")
              (ApiContext.mkResponse 401 (Some (JS.JStr "Invalid token")))
              rejecting_server ready eq_refl (fun c => eq_refl))
    as (_ & _ & _ & _ & _ & Hfx & Hlog).
  destruct (server_answer_is_reported None (Some "fresh")
              (ApiContext.mkResponse 422 (Some validation_detail))
              validating_server ready eq_refl (fun c => eq_refl))
    as (_ & _ & _ & _ & _ & Hfx' & Hlog').
  exact (conj (conj Hfx Hlog) (conj Hfx' Hlog')).
Defined.

(** X15: when the server cannot be reached, the request of a submission
    has left the client once all the same; the error carries no response,
    so the response interceptor logs nothing, the catch block logs Upload
    error: with the error, and the user gets the generic alert and stays
    on the form, which is no longer uploading. *)
Theorem unreachable_server_is_reported
    (VITE_API_URL : option string) (token : option string) (why : string)
    (server : ApiContext.RequestConfig Upload.FormData -> ApiContext.Reply)
    (st : Upload.State) :
  Upload.lacksSource st = false ->
  (forall c, server c = ApiContext.Unreachable why) ->
  exists x sent,
    submit VITE_API_URL (JS.Resolved token) server st
    = (after_submit st,
       [caption_post st; Upload.Alert "Upload failed. Please try again."],
       Some x) /\
    ApiContext.dispatched x = [sent] /\
    ApiContext.url sent = "/api/caption" /\
    submit_console VITE_API_URL (JS.Resolved token) server st
    = [LoggedError "Upload error:" (unanswered_error why)].
Proof.
  intros H Hs.
  destruct (submit_called VITE_API_URL (JS.Resolved token) server st H) as [Hsub Hcon].
  rewrite Hsub, Hcon.
  unfold caption_exchange, ApiContext.post, ApiContext.requestInterceptor, ApiContext.exchange.
  destruct token as [t|]; [destruct (JS.truthy (Some t))|]; rewrite Hs;
    cbn [ApiContext.responseRejected ApiContext.settled ApiContext.dispatched
         ApiContext.console ApiContext.response after_await fst snd map app];
    (eexists; eexists; split; [reflexivity|]; split; [reflexivity|]; split; reflexivity).
Qed.

Lemma unreachable_server_is_reported_witness :
  exists x sent,
    submit None (JS.Resolved None) unreachable_server ready
    = (after_submit ready,
       [caption_post ready; Upload.Alert "Upload failed. Please try again."],
       Some x) /\
    ApiContext.dispatched x = [sent] /\
    ApiContext.url sent = "/api/caption" /\
    submit_console None (JS.Resolved None) unreachable_server ready
    = [LoggedError "Upload error:" (unanswered_error "Network Error")].
Proof.
  exact (unreachable_server_is_reported None None "Network Error" unreachable_server ready
           eq_refl (fun c => eq_refl)).
Defined.

(** X4: the request of a submission leaves the client once, as a POST of
    the form to /api/caption under the instance's base URL, which is never
    empty; its Content-Type is multipart/form-data, the call's header
    replacing the instance default application/json; and it carries
    Authorization Bearer and the token exactly when a non-empty token is
    available: without a token the request is dispatched all the same, with
    no Authorization header. *)
Theorem dispatched_request_headers
    (VITE_API_URL : option string) (token : option string)
    (server : ApiContext.RequestConfig Upload.FormData -> ApiContext.Reply)
    (st : Upload.State) :
  Upload.lacksSource st = false ->
  exists x sent,
    snd (submit VITE_API_URL (JS.Resolved token) server st) = Some x /\
    ApiContext.dispatched x = [sent] /\
    ApiContext.url sent = "/api/caption" /\
    ApiContext.method sent = "post" /\
    ApiContext.baseURL sent = ApiContext.default_baseURL VITE_API_URL /\
    ApiContext.baseURL sent <> "" /\
    ApiContext.data sent
    = Some (Upload.source_entries st ++ Upload.style_entries (Upload.captionStyle st))%list /\
    ApiContext.headers sent !! "Content-Type" = Some "multipart/form-data" /\
    ApiContext.headers sent !! "Authorization"
    = match token with
      | Some t => if String.eqb t "" then None else Some ("Bearer " ++ t)
      | None => None
      end.
Proof.
  intros H.
  rewrite (proj1 (submit_called VITE_API_URL (JS.Resolved token) server st H)). cbn [fst snd].
  assert (Hbase : ApiContext.default_baseURL VITE_API_URL <> "").
  { unfold ApiContext.default_baseURL. destruct VITE_API_URL as [u|]; [|discriminate].
    destruct (JS.truthy (Some u)) eqn:T; [|discriminate]. now apply JSFacts.truthy_Some. }
  unfold caption_exchange, ApiContext.post, ApiContext.requestInterceptor, ApiContext.exchange.
  destruct token as [t|]; [unfold JS.truthy; destruct (String.eqb t "")|]; cbn [negb];
    match goal with
    | |- context [server ?c] =>
        destruct (server c) as [r|why];
        [destruct ((200 <=? ApiContext.http_status r) && (ApiContext.http_status r <? 300))%Z|]
    end;
    cbn [ApiContext.responseRejected ApiContext.response];
    (eexists; eexists; split; [reflexivity|]; split; [reflexivity|]);
    cbn [ApiContext.url ApiContext.method ApiContext.baseURL ApiContext.data
         ApiContext.headers ApiContext.set_Authorization];
    repeat split; try exact Hbase;
    try (rewrite lookup_insert_ne by discriminate);
    try apply lookup_insert_eq;
    reflexivity.
Qed.

Lemma dispatched_request_headers_witness :
  exists x sent,
    snd (submit None (JS.Resolved None) accepting_server ready) = Some x /\
    ApiContext.dispatched x = [sent] /\
    ApiContext.headers sent !! "Authorization" = None /\
    ApiContext.headers sent !! "Content-Type" = Some "multipart/form-data" /\
    ApiContext.baseURL sent = "http://localhost:8000".
Proof.
  destruct (dispatched_request_headers None None accepting_server ready eq_refl)
    as (x & sent & Hx & Hd & _ & _ & Hb & _ & _ & Hct & Hauth).
  exists x, sent. exact (conj Hx (conj Hd (conj Hauth (conj Hct Hb)))).
Defined.

End ClientFacts.

(** ** The upload page while requests are in flight *)

Module PageFacts.

Import Upload.
Import UploadSpec.
Import Page.
Import PageSpec.

(** An event other than a submission leaves the uploading flag alone and
    calls [api.post] not at all. *)
Lemma handle_other_event (e : Event) (st : State) :
  is_submission e = false ->
  isUploading (fst (handle e st)) = isUploading st /\
  count_posts (snd (handle e st)) = 0.
Proof.
  intros He.
  assert (Hsel : forall f s,
            isUploading (fst (handleFileSelect f s)) = isUploading s /\
            count_posts (snd (handleFileSelect f s)) = 0).
  { intros f s. unfold handleFileSelect. destruct (JS.startsWith _ _); split; reflexivity. }
  destruct e as [m| | |files|files|v|v|pos|pos|v|v|pos|outcome|]; simpl;
    try discriminate He; try (split; reflexivity).
  - unfold handleFileDrop. destruct files as [|f files]; [split; reflexivity|].
    apply (Hsel f (setDragOver false st)).
  - unfold handleFileChange. destruct files as [[|f files]|]; try (split; reflexivity).
    apply Hsel.
Qed.

Lemma allowed_Act (valid_url : string -> bool) (e : Event) (v : View) :
  allowed valid_url (Act e) v = true -> is_submission e = false.
Proof. destruct e; simpl; intros H; try reflexivity. discriminate H. Qed.

(** One allowed step keeps the count of awaited calls in line with the
    uploading flag. *)
Lemma step_allowed (valid_url : string -> bool) (s : Step) (v : View) :
  awaiting v = (if isUploading (form v) then 1 else 0) ->
  allowed valid_url s v = true ->
  awaiting (fst (fst (step s v)))
  = (if isUploading (form (fst (fst (step s v)))) then 1 else 0) /\
  count_posts (snd (fst (step s v))) = (if is_press s then 1 else 0) /\
  awaiting v + (if is_press s then 1 else 0)
  = awaiting (fst (fst (step s v))) + (if is_answer s then 1 else 0).
Proof.
  intros Hinv Hal. destruct s as [e| |s].
  - apply allowed_Act in Hal.
    destruct (handle_other_event e (form v) Hal) as [Hup Hposts].
    unfold step. destruct (handle e (form v)) as [st fx]. simpl in *.
    rewrite Hup. split; [exact Hinv|]. split; [exact Hposts|lia].
  - simpl in Hal. apply andb_prop in Hal as [Hal _]. apply andb_prop in Hal as [_ Hal].
    apply negb_true_iff in Hal. unfold submitDisabled in Hal.
    apply orb_false_iff in Hal as [Hup Hsrc].
    rewrite Hup in Hinv. unfold step, Client.before_await. rewrite Hsrc. simpl.
    rewrite Hinv. split; [reflexivity|]. split; reflexivity.
  - simpl in Hal. apply Nat.ltb_lt in Hal.
    destruct (isUploading (form v)); [|lia].
    unfold step. destruct s as [r|error]; simpl; rewrite Hinv; repeat split.
Qed.

Lemma play_cons (valid_url : string -> bool) (s : Step) (rest : list Step) (v : View) :
  play valid_url (s :: rest) v
  = if allowed valid_url s v then
      match play valid_url rest (fst (fst (step s v))) with
      | Some (v2, fx2, log2) =>
          Some (v2, (snd (fst (step s v)) ++ fx2)%list, (snd (step s v) ++ log2)%list)
      | None => None
      end
    else None.
Proof. simpl. destruct (step s v) as [[v1 fx1] log1]. reflexivity. Qed.

Lemma play_allowed (valid_url : string -> bool) (steps : list Step) :
  forall v v' fx log,
    awaiting v = (if isUploading (form v) then 1 else 0) ->
    play valid_url steps v = Some (v', fx, log) ->
    awaiting v' = (if isUploading (form v') then 1 else 0) /\
    count_posts fx = count_presses steps /\
    awaiting v + count_presses steps = awaiting v' + count_answers steps.
Proof.
  induction steps as [|s rest IH]; intros v v' fx log Hinv Hplay.
  - injection Hplay as <- <- <-. split; [exact Hinv|]. split; [reflexivity|].
    unfold count_presses, count_answers. simpl. lia.
  - rewrite play_cons in Hplay.
    destruct (allowed valid_url s v) eqn:Hal; [|discriminate].
    destruct (step_allowed valid_url s v Hinv Hal) as (Hinv1 & Hposts & Hbal).
    destruct (play valid_url rest (fst (fst (step s v)))) as [[[v2 fx2] log2]|] eqn:Hrest;
      [|discriminate].
    injection Hplay as <- <- <-.
    destruct (IH _ _ _ _ Hinv1 Hrest) as (Hinv2 & Hposts2 & Hbal2).
    split; [exact Hinv2|].
    unfold count_posts, count_presses, count_answers in *. cbn [List.filter].
    rewrite List.filter_app, List.length_app, Hposts, Hposts2.
    destruct (is_press s), (is_answer s); simpl in *; lia.
Qed.

(** X1: on the page as it is rendered, with the request of a submission in
    flight while other events arrive, the form is uploading exactly while
    one call of [api.post] is awaited, and never more than one is: the
    submit button is disabled while the form is uploading and while the
    guard at the head of [handleSubmit] would fail, and the browser does
    not submit a form whose URL field holds an invalid text. So in every
    run of steps the page allows, every submission calls [api.post]
    exactly once, and each call has either settled or is the one
    awaited. *)
Theorem one_call_awaited_at_a_time
    (valid_url : string -> bool) (steps : list Step)
    (v : View) (fx : list Effect) (log : list Client.ConsoleEntry) :
  play valid_url steps initialView = Some (v, fx, log) ->
  awaiting v = (if isUploading (form v) then 1 else 0) /\
  count_posts fx = count_presses steps /\
  count_presses steps = awaiting v + count_answers steps.
Proof.
  intros Hplay.
  destruct (play_allowed valid_url steps initialView v fx log eq_refl Hplay)
    as (Hinv & Hposts & Hbal).
  split; [exact Hinv|]. split; [exact Hposts|]. exact Hbal.
Qed.

(** While the request is in flight the form is uploading and a slider
    still moves; once the call has failed the form is idle again, and one
    call was made in all. *)
Lemma one_call_awaited_at_a_time_witness :
  (exists v fx log,
     play starts_with_http in_flight_session initialView = Some (v, fx, log) /\
     isUploading (form v) = true /\ awaiting v = 1 /\
     font_size (captionStyle (form v)) = JS.Num 30 /\ count_posts fx = 1) /\
  (exists v fx log,
     play starts_with_http settled_session initialView = Some (v, fx, log) /\
     isUploading (form v) = false /\ awaiting v = 0 /\ count_posts fx = 1).
Proof.
  split.
  - destruct (play starts_with_http in_flight_session initialView)
      as [[[v fx] log]|] eqn:Hplay; [|discriminate Hplay].
    destruct (one_call_awaited_at_a_time starts_with_http in_flight_session v fx log Hplay)
      as (Hinv & Hposts & _).
    exists v, fx, log. split; [reflexivity|].
    vm_compute in Hplay. injection Hplay as <- _ _.
    split; [reflexivity|]. split; [reflexivity|]. split; [reflexivity|exact Hposts].
  - destruct (play starts_with_http settled_session initialView)
      as [[[v fx] log]|] eqn:Hplay; [|discriminate Hplay].
    destruct (one_call_awaited_at_a_time starts_with_http settled_session v fx log Hplay)
      as (Hinv & Hposts & _).
    exists v, fx, log. split; [reflexivity|].
    vm_compute in Hplay. injection Hplay as <- _ _.
    split; [reflexivity|]. split; [reflexivity|exact Hposts].
Defined.

End PageFacts.

(** ** The job orchestrator *)

Module OrchestratorFacts.

Import Core.
Import OrchestratorSpec.

Section Worker.

Variable max_retries : nat.

Lemma rank_stage_index (s1 s2 : Status) (n1 n2 : nat) :
  rank s1 <= rank s2 ->
  stage_index s1 = Some n1 -> stage_index s2 = Some n2 -> n1 <= n2.
Proof. destruct s1, s2; simpl; intros H [= <-] [= <-]; lia. Qed.

Lemma advance_terminal (e : StageEvent) (t : Tracked) :
  is_terminal (status (job t)) = true -> advance max_retries e t = t.
Proof.
  unfold advance. destruct (status (job t)); simpl; try discriminate; reflexivity.
Qed.

Lemma enter_next_stage_rank (t : Tracked) :
  rank (status (job t)) <= rank (status (job (enter_next_stage t))).
Proof.
  unfold enter_next_stage. destruct (cancel_requested t); simpl.
  - destruct (status (job t)); simpl; lia.
  - destruct (status (job t)); simpl; lia.
Qed.

(** One event never moves the status of a job backward. *)
Lemma advance_rank (e : StageEvent) (t : Tracked) :
  rank (status (job t)) <= rank (status (job (advance max_retries e t))).
Proof.
  pose proof (enter_next_stage_rank t) as Hn.
  unfold advance.
  destruct (status (job t)) eqn:Es; rewrite ?Es; try lia;
    destruct e as [|r now|k msg|]; simpl; rewrite ?Es; simpl; try lia;
    try (destruct (retryable k && _)%bool; simpl; rewrite ?Es; simpl; lia).
  all: simpl in Hn; lia.
Qed.

Lemma fail_job_consistent (k : ErrorKind) (msg : string) (j : Job) :
  consistent (fail_job k msg j).
Proof.
  split; simpl; split; intros H; try discriminate H; try reflexivity; eauto.
  destruct H as [x H]. discriminate H.
Qed.

Lemma complete_job_consistent (r : Ref) (now : Timestamp) (j : Job) :
  consistent (complete_job r now j).
Proof.
  split; simpl; split; intros H; try discriminate H; try reflexivity; eauto.
  destruct H as [x H]. discriminate H.
Qed.

Lemma with_status_consistent (s : Status) (j : Job) :
  is_terminal (status j) = false -> is_terminal s = false ->
  consistent j -> consistent (with_status s j).
Proof.
  intros Hj Hs [Hr He]. split; simpl.
  - rewrite Hr. split; intros H; rewrite H in *; discriminate.
  - rewrite He. split; intros H; rewrite H in *; discriminate.
Qed.

Lemma enter_next_stage_consistent (t : Tracked) :
  is_terminal (status (job t)) = false ->
  status (job t) <> rendering ->
  consistent (job t) -> consistent (job (enter_next_stage t)).
Proof.
  intros Ht Hrender Hc. unfold enter_next_stage.
  destruct (cancel_requested t); simpl.
  - apply fail_job_consistent.
  - apply with_status_consistent; [exact Ht| |exact Hc].
    destruct (status (job t)); try discriminate; try reflexivity. congruence.
Qed.

(** One event keeps a job record consistent. *)
Lemma advance_consistent (e : StageEvent) (t : Tracked) :
  consistent (job t) -> consistent (job (advance max_retries e t)).
Proof.
  intros Hc. unfold advance.
  destruct (status (job t)) eqn:Es; try exact Hc;
    destruct e as [|r now|k msg|]; simpl; try exact Hc;
    try (apply enter_next_stage_consistent;
         [rewrite Es; reflexivity|rewrite Es; discriminate|exact Hc]);
    try apply complete_job_consistent;
    destruct (retryable k && _)%bool; simpl; try exact Hc; apply fail_job_consistent.
Qed.

Lemma execute_ids (c : Command) (o : Orchestrator) :
  ids_below_next o -> ids_below_next (execute max_retries c o).
Proof.
  intros Ho. destruct c as [src st now|i e]; simpl.
  - intros k t. simpl. rewrite lookup_insert.
    case_decide as Hk.
    + intros _. subst k. lia.
    + intros Hl. apply Ho in Hl. lia.
  - destruct (jobs o !! i) as [t|] eqn:El; [|exact Ho].
    intros k t'. simpl. rewrite lookup_insert.
    case_decide as Hk.
    + intros _. subst k. eapply Ho. exact El.
    + apply Ho.
Qed.

Lemma run_ids (cs : list Command) :
  forall o, ids_below_next o -> ids_below_next (run max_retries cs o).
Proof.
  induction cs as [|c rest IH]; intros o Ho; [exact Ho|].
  simpl. apply IH, execute_ids, Ho.
Qed.

Lemma empty_ids : ids_below_next empty_orchestrator.
Proof. intros i t H. simpl in H. rewrite lookup_empty in H. discriminate H. Qed.

(** One command: a job that is known stays known, its status does not move
    backward, and a terminal job is left as it is. *)
Lemma execute_job (c : Command) (o : Orchestrator) (i : JobId) (t : Tracked) :
  ids_below_next o ->
  jobs o !! i = Some t ->
  exists t', jobs (execute max_retries c o) !! i = Some t' /\
             rank (status (job t)) <= rank (status (job t')) /\
             (is_terminal (status (job t)) = true -> t' = t).
Proof.
  intros Ho Hl. destruct c as [src st now|k e]; simpl.
  - exists t. rewrite lookup_insert_ne; [auto|].
    apply Ho in Hl. intros E. rewrite E in Hl. lia.
  - destruct (jobs o !! k) as [tk|] eqn:Ek; simpl.
    + destruct (decide (k = i)) as [->|Hne].
      * rewrite lookup_insert_eq. assert (tk = t) as -> by congruence.
        eexists. split; [reflexivity|]. split; [apply advance_rank|].
        apply advance_terminal.
      * rewrite lookup_insert_ne by exact Hne. eauto.
    + eauto.
Qed.

Lemma run_job (cs : list Command) :
  forall o i t,
    ids_below_next o ->
    jobs o !! i = Some t ->
    exists t', jobs (run max_retries cs o) !! i = Some t' /\
               rank (status (job t)) <= rank (status (job t')) /\
               (is_terminal (status (job t)) = true -> t' = t).
Proof.
  induction cs as [|c rest IH]; intros o i t Ho Hl.
  - exists t. auto.
  - simpl.
    destruct (execute_job c o i t Ho Hl) as (t1 & Hl1 & Hr1 & Ht1).
    destruct (IH _ i t1 (execute_ids c o Ho) Hl1) as (t2 & Hl2 & Hr2 & Ht2).
    exists t2. split; [exact Hl2|]. split; [lia|].
    intros Hterm. specialize (Ht1 Hterm). subst t1. auto.
Qed.

Lemma execute_consistent (c : Command) (o : Orchestrator) :
  (forall i t, jobs o !! i = Some t -> consistent (job t)) ->
  forall i t, jobs (execute max_retries c o) !! i = Some t -> consistent (job t).
Proof.
  intros Ho i t. destruct c as [src st now|k e]; simpl.
  - rewrite lookup_insert. case_decide.
    + intros [= <-]. split; simpl; split; intros Hx; try discriminate Hx;
        destruct Hx as [x Hx]; discriminate Hx.
    + apply Ho.
  - destruct (jobs o !! k) as [tk|] eqn:Ek; simpl; [|apply Ho].
    rewrite lookup_insert. case_decide.
    + intros [= <-]. apply advance_consistent. eapply Ho. exact Ek.
    + apply Ho.
Qed.

Lemma run_consistent (cs : list Command) :
  forall o,
    (forall i t, jobs o !! i = Some t -> consistent (job t)) ->
    forall i t, jobs (run max_retries cs o) !! i = Some t -> consistent (job t).
Proof.
  induction cs as [|c rest IH]; intros o Ho; [exact Ho|].
  simpl. apply IH. apply execute_consistent. exact Ho.
Qed.

Lemma get_status_Ok (i : JobId) (o : Orchestrator) (j : Job) :
  get_status i o = Ok j <-> exists t, jobs o !! i = Some t /\ job t = j.
Proof.
  unfold get_status. destruct (jobs o !! i) as [t|]; split.
  - intros [= <-]. eauto.
  - intros (t' & [= <-] & <-). reflexivity.
  - discriminate.
  - intros (t' & H & _). discriminate H.
Qed.

End Worker.

(** C2: for every job and every two successive observations of its status
    through [get_status], the later status is never earlier than the
    earlier one in the stage order pending, extracting_audio, transcribing,
    rendering; a job seen in a terminal state is never seen in a stage
    again, and once the status is completed or failed the job no longer
    changes. The job is still known at the later observation. *)
Theorem status_never_moves_backward
    (max_retries : nat) (before after : list Command) (i : JobId) (j1 : Job) :
  get_status i (run max_retries before empty_orchestrator) = Ok j1 ->
  exists j2,
    get_status i (run max_retries after (run max_retries before empty_orchestrator)) = Ok j2 /\
    (forall n1 n2,
       stage_index (status j1) = Some n1 -> stage_index (status j2) = Some n2 -> n1 <= n2) /\
    (is_terminal (status j1) = true -> is_terminal (status j2) = true) /\
    (is_terminal (status j1) = true -> j2 = j1).
Proof.
  intros H1. apply get_status_Ok in H1 as (t1 & Hl1 & <-).
  pose proof (run_ids max_retries before _ empty_ids) as Hids.
  destruct (run_job max_retries after _ i t1 Hids Hl1) as (t2 & Hl2 & Hr & Ht).
  exists (job t2). split; [|split; [|split]].
  - apply get_status_Ok. eauto.
  - intros n1 n2. apply rank_stage_index. exact Hr.
  - intros Hterm. rewrite (Ht Hterm). exact Hterm.
  - intros Hterm. rewrite (Ht Hterm). reflexivity.
Qed.

(** Seen while transcribing, then seen failed after the retry was used up;
    the later success report changes nothing. *)
Lemma status_never_moves_backward_witness :
  get_status 0%N (run 1 up_to_transcribing empty_orchestrator) = Ok job_transcribing /\
  get_status 0%N (run 1 failing_twice (run 1 up_to_transcribing empty_orchestrator))
    = Ok job_failed /\
  exists j2,
    get_status 0%N (run 1 failing_twice (run 1 up_to_transcribing empty_orchestrator)) = Ok j2 /\
    (forall n1 n2,
       stage_index (status job_transcribing) = Some n1 ->
       stage_index (status j2) = Some n2 -> n1 <= n2) /\
    (is_terminal (status job_transcribing) = true -> is_terminal (status j2) = true) /\
    (is_terminal (status job_transcribing) = true -> j2 = job_transcribing).
Proof.
  assert (H : get_status 0%N (run 1 up_to_transcribing empty_orchestrator)
              = Ok job_transcribing) by reflexivity.
  split; [exact H|]. split; [reflexivity|].
  exact (status_never_moves_backward 1 up_to_transcribing failing_twice 0%N job_transcribing H).
Defined.

(** C3: every job the orchestrator holds in a terminal state has exactly one
    of [error] and [result_ref] set: the result reference is present
    exactly when the status is completed and the error exactly when it is
    failed, so a failed job never has a result reference. On the client,
    the card offers the download only for a completed video that carries a
    result URL, never for a failed one, and shows the error box exactly
    when an error is present. *)
Theorem terminal_job_has_error_or_result
    (max_retries : nat) (cs : list Command) (i : JobId) (j : Job)
    (formatDistanceToNow : string -> string) (v : VideoCard.Video) :
  get_status i (run max_retries cs empty_orchestrator) = Ok j ->
  is_terminal (status j) = true ->
  ((is_Some (result_ref j) <-> status j = completed) /\
   (is_Some (error j) <-> status j = failed) /\
   (is_Some (result_ref j) <-> ~ is_Some (error j)) /\
   (status j = failed -> result_ref j = None)) /\
  ((is_Some (VideoCard.download_button (VideoCard.render formatDistanceToNow v)) <->
      VideoCard.status v = "completed" /\
      exists u, VideoCard.captioned_video_url v = Some u /\ u <> "") /\
   (VideoCard.status v = "failed" ->
      VideoCard.download_button (VideoCard.render formatDistanceToNow v) = None) /\
   (is_Some (VideoCard.error_box (VideoCard.render formatDistanceToNow v)) <->
      exists e, VideoCard.error v = Some e /\ e <> "")).
Proof.
  intros Hget Hterm. split.
  - apply get_status_Ok in Hget as (t & Hl & <-).
    assert (Hc : consistent (job t)).
    { eapply (run_consistent max_retries cs empty_orchestrator); [|exact Hl].
      intros k tk Hk. simpl in Hk. rewrite lookup_empty in Hk. discriminate Hk. }
    destruct Hc as [Hr He]. split; [exact Hr|]. split; [exact He|]. split.
    + rewrite Hr, He. destruct (status (job t)); simpl in Hterm; try discriminate Hterm;
        split; intros H; try discriminate H; try reflexivity; congruence.
    + intros Hf. destruct (result_ref (job t)) eqn:Er; [|reflexivity].
      assert (Hs : status (job t) = completed) by (apply Hr; eauto).
      congruence.
  - simpl. split; [|split].
    + destruct (String.eqb_spec (VideoCard.status v) "completed") as [Hs|Hs].
      * split.
        -- intros [[u f] Hb]. apply JSFacts.when_truthy_Some in Hb as (u' & Hu & Hne & _).
           split; [exact Hs|]. eauto.
        -- intros (_ & u & Hu & Hne). exists (u, VideoCard.filename v).
           apply JSFacts.when_truthy_Some. eauto.
      * split; [intros [x Hx]; discriminate Hx|]. intros [Hc _]. contradiction.
    + intros Hf. rewrite Hf. reflexivity.
    + split.
      * intros [e Hb]. apply JSFacts.when_truthy_Some in Hb as (e' & He & Hne & _). eauto.
      * intros (e & He & Hne). exists e. apply JSFacts.when_truthy_Some. eauto.
Qed.

(** The failed job above has its error set and no result reference. *)
Lemma terminal_job_has_error_or_result_witness :
  is_Some (error job_failed) /\ result_ref job_failed = None /\
  VideoCard.download_button
    (VideoCard.render (fun s => s)
       (VideoCard.mkVideo "0" "talk.mp4" "failed" "" None (Some "/api/download/x.mp4")
          (Some "engine timeout"))) = None.
Proof.
  destruct (terminal_job_has_error_or_result 1 (up_to_transcribing ++ failing_twice) 0%N
              job_failed (fun s => s)
              (VideoCard.mkVideo "0" "talk.mp4" "failed" "" None
                 (Some "/api/download/x.mp4") (Some "engine timeout")))
    as ((_ & He & _ & Hr) & (_ & Hd & _)); [reflexivity|reflexivity|].
  split; [apply He; reflexivity|]. split; [apply Hr; reflexivity|].
  apply Hd. reflexivity.
Defined.

End OrchestratorFacts.

(** ** Routing *)

Module RoutesFacts.

Import Routes.
Import RoutesSpec.

(** X11: on each of the three routes the app comes to rest after at most
    one redirect, whatever the auth state: while the auth state is loading
    the spinner is shown in place; a signed-out visitor ends on /login with
    the login page; a signed-in user never sees the login page and ends on
    the upload page for /upload and on the dashboard otherwise, inside the
    layout whose highlighted link, on desktop and mobile alike, is the one
    of the page shown. *)
Theorem routes_settle_after_one_redirect
    (auth : Auth) (isSigningIn : bool) (pathname : string) :
  In pathname routes ->
  exists final shown,
    settle 1 auth isSigningIn pathname = (final, shown) /\
    (forall to, shown <> Navigate to) /\
    (loading auth = true -> final = pathname /\ shown = Spinner) /\
    (loading auth = false -> user auth = None ->
       final = "/login" /\
       shown = LoginPage isSigningIn
                 (if isSigningIn then "Signing in..." else "Sign in with Google")) /\
    (loading auth = false -> is_Some (user auth) ->
       exists layout content,
         shown = Page layout content /\
         final = (if String.eqb pathname "/upload" then "/upload" else "/") /\
         content = (if String.eqb pathname "/upload" then UploadPage else Dashboard) /\
         dashboard_active layout = negb (String.eqb pathname "/upload") /\
         upload_active layout = String.eqb pathname "/upload" /\
         mobile_dashboard_active layout = dashboard_active layout /\
         mobile_upload_active layout = upload_active layout /\
         user_label layout = userLabel (user auth)).
Proof.
  intros Hin. destruct auth as [[u|] [|]];
    simpl in Hin; destruct Hin as [<-|[<-|[<-|[]]]];
    (eexists; eexists; split; [reflexivity|]);
    (split; [intros to H; discriminate H|]);
    (split; [intros H; try discriminate H; split; reflexivity|]);
    (split; [intros H1 H2; try discriminate H1; try discriminate H2; split; reflexivity|]);
    intros H1 H2; try discriminate H1; try (destruct H2 as [x H2]; discriminate H2);
    eexists; eexists; repeat split.
Qed.

(** A signed-in user who opens /login lands on the dashboard; a signed-out
    visitor who opens /upload lands on the login page. *)
Lemma routes_settle_after_one_redirect_witness :
  (exists layout, settle 1 signed_in false "/login" = ("/", Page layout Dashboard) /\
                  user_label layout = Some "ada@example.org") /\
  settle 1 signed_out false "/upload" = ("/login", LoginPage false "Sign in with Google").
Proof.
  destruct (routes_settle_after_one_redirect signed_in false "/login")
    as (f1 & s1 & E1 & _ & _ & _ & H1); [simpl; auto|].
  destruct (routes_settle_after_one_redirect signed_out false "/upload")
    as (f2 & s2 & E2 & _ & _ & H2 & _); [simpl; auto|].
  destruct H1 as (layout & content & -> & -> & -> & _ & _ & _ & _ & Hl);
    [reflexivity|simpl; eauto|].
  destruct H2 as [-> ->]; [reflexivity|reflexivity|].
  split; [|exact E2]. exists layout. split; [exact E1|exact Hl].
Defined.

End RoutesFacts.


